(** * ralph: the harness loop and its backlog model

    A shallow embedding of [src/ralph/models.py] and [src/ralph/harness.py].

    - Python [int] is [Z]; [str] is [string] (one Rocq character per Python
      character); [Optional[T]] is [option T]; [list[T]] is [list T].
    - A [WorkItem] returned by a [PRD] method is a reference into
      [prd.items]: the embedding returns the index of the item together with
      the item, and a mutation through the reference is an update of the list
      at that index.
    - Everything outside the process (sub-processes, the file system, the
      clock) is reached through the [Platform] class; the calls made and the
      console output are recorded in the run state. *)

From Stdlib Require Import ZArith String DecimalString List Lia.
From stdpp Require Import base list strings.

Open Scope Z_scope.

(** ** Python string helpers *)

(** [str(n)] for an [int]. *)
Definition str_int (z : Z) : string := NilZero.string_of_int (Z.to_int z).

(** [s[:n]] *)
Definition str_prefix (n : nat) (s : string) : string := String.substring 0 n s.

(** [s[-n:]] for [n > 0]. *)
Definition str_suffix (n : nat) (s : string) : string :=
  String.substring (String.length s - n) n s.

(** The line feed, [chr(10)]. *)
Definition nl : string := String (Ascii.ascii_of_nat 10) EmptyString.

(** [sep.join(parts)] *)
Definition str_join (sep : string) (parts : list string) : string :=
  String.concat sep parts.

(** ** models.py *)

Module Models.

Inductive ItemState : Type := TODO | DOING | DONE | BLOCKED.

#[global] Instance ItemState_eq_dec : EqDecision ItemState.
Proof. solve_decision. Defined.

(** Timestamps ([datetime]) are opaque to the harness; they are numbered. *)
Definition datetime : Type := Z.

Record ItemStatus : Type := mkItemStatus {
  state : ItemState;
  attempts : Z;
  last_error : option string;
  done_at : option datetime
}.

Record WorkItem : Type := mkWorkItem {
  id : string;
  title : string;
  description : string;
  acceptance_criteria : list string;
  files_hint : list string;
  verify : option (list string);
  status : ItemStatus
}.

Record ProjectMeta : Type := mkProjectMeta {
  name : string;
  language : string;
  default_branch : string
}.

Record GlobalConfig : Type := mkGlobalConfig {
  global_verify : list string
}.

Record PRD : Type := mkPRD {
  version : Z;
  project : ProjectMeta;
  global_config : GlobalConfig;
  items : list WorkItem
}.

(** Field defaults of [ItemStatus]. *)
Definition default_status : ItemStatus :=
  {| state := TODO; attempts := 0; last_error := None; done_at := None |}.

(** Assignments through a reference: [item.status.<field> = v]. *)
Definition set_state (v : ItemState) (st : ItemStatus) : ItemStatus :=
  {| state := v; attempts := attempts st;
     last_error := last_error st; done_at := done_at st |}.

Definition set_attempts (v : Z) (st : ItemStatus) : ItemStatus :=
  {| state := state st; attempts := v;
     last_error := last_error st; done_at := done_at st |}.

Definition set_last_error (v : option string) (st : ItemStatus) : ItemStatus :=
  {| state := state st; attempts := attempts st;
     last_error := v; done_at := done_at st |}.

Definition set_done_at (v : option datetime) (st : ItemStatus) : ItemStatus :=
  {| state := state st; attempts := attempts st;
     last_error := last_error st; done_at := v |}.

Definition with_status (f : ItemStatus -> ItemStatus) (it : WorkItem) : WorkItem :=
  {| id := id it; title := title it; description := description it;
     acceptance_criteria := acceptance_criteria it;
     files_hint := files_hint it; verify := verify it;
     status := f (status it) |}.

Definition with_items (l : list WorkItem) (prd : PRD) : PRD :=
  {| version := version prd; project := project prd;
     global_config := global_config prd; items := l |}.

(** The item behind the reference [i]. *)
Definition item_at (prd : PRD) (i : nat) : option WorkItem := items prd !! i.

(** The document after the object behind the reference [i] has become
    [item]: a mutation of an item is seen through [prd.items]. *)
Definition store (i : nat) (item : WorkItem) (prd : PRD) : PRD :=
  with_items (<[i:=item]> (items prd)) prd.

Definition has_state (s : ItemState) (it : WorkItem) : Prop :=
  state (status it) = s.

#[global] Instance has_state_dec s it : Decision (has_state s it).
Proof. unfold has_state. apply _. Defined.

(** [PRD.get_next_todo]: the first item with [state == todo]. *)
Definition get_next_todo (prd : PRD) : option (nat * WorkItem) :=
  list_find (has_state TODO) (items prd).

(** [PRD.get_next_item]: [(item, is_resuming)]. *)
Definition get_next_item (prd : PRD) : option (nat * WorkItem) * bool :=
  match list_find (has_state DOING) (items prd) with
  | Some r => (Some r, true)
  | None =>
      match list_find (has_state TODO) (items prd) with
      | Some r => (Some r, false)
      | None => (None, false)
      end
  end.

(** [PRD.get_item_by_id] *)
Definition get_item_by_id (prd : PRD) (item_id : string) : option (nat * WorkItem) :=
  list_find (fun it => id it = item_id) (items prd).

(** [PRD.all_done]: every item is done or blocked. *)
Definition all_done (prd : PRD) : bool :=
  forallb (fun it => bool_decide (state (status it) = DONE)
                     || bool_decide (state (status it) = BLOCKED))
          (items prd).

(** [PRD.count_by_state]: a total table from states to counts. *)
Definition count_by_state (prd : PRD) : ItemState -> Z :=
  fold_left
    (fun counts it s =>
       if bool_decide (s = state (status it)) then counts s + 1 else counts s)
    (items prd) (fun _ => 0).

End Models.
Export Models.

(** ** harness.py *)

Module Harness.

Definition Path : Type := string.

(** [a / b] on paths, for a relative [b]. *)
Definition path_join (a b : Path) : Path := a +:+ "/" +:+ b.

Definition RALPH_DIR : string := ".ralph".
Definition PRD_FILE : string := "prd.json".
Definition PROGRESS_FILE : string := "progress.txt".

(** Default blocked threshold: mark as blocked after this many failed
    attempts. *)
Definition BLOCKED_THRESHOLD : Z := 3.

Definition get_ralph_dir (repo_root : Path) : Path := path_join repo_root RALPH_DIR.
Definition get_prd_path (repo_root : Path) : Path :=
  path_join (get_ralph_dir repo_root) PRD_FILE.
Definition get_progress_path (repo_root : Path) : Path :=
  path_join (get_ralph_dir repo_root) PROGRESS_FILE.

(** *** The platform: sub-processes, files, clock *)

(** The first argument of [subprocess.run]: an argument vector, or a command
    line with [shell=True]. *)
Inductive Command : Type :=
  | Argv (args : list string)
  | Shell (line : string).

(** What [subprocess.run] does: it returns a completed process, or raises. *)
Inductive ProcResult : Type :=
  | Completed (returncode : Z) (stdout stderr : string)
  | Threw (exc : string).

(** [open(path)], [json.load] and [PRD.model_validate] in one step. *)
Inductive ReadResult : Type :=
  | ReadJSONDecodeError (exc : string)
  | ReadException (exc : string)
  | Parsed (prd : PRD).

Class Platform : Type := {
  World : Type;
  subprocess_run : Command -> Path -> World -> ProcResult * World;
  path_exists : Path -> World -> bool;
  read_prd_file : Path -> World -> ReadResult;
  write_prd_file : Path -> PRD -> World -> World;
  touch : Path -> World -> World;
  append_text : Path -> string -> World -> World;
  utc_now : World -> datetime;
  isoformat : datetime -> string
}.

(** A value or a raised exception. *)
Inductive Result (A : Type) : Type :=
  | Ok (a : A)
  | Exn (exc : string).
Arguments Ok {A} a.
Arguments Exn {A} exc.

(** The outcome of [load_prd]. *)
Inductive LoadResult : Type :=
  | FileNotFoundError (exc : string)
  | JSONDecodeError (exc : string)
  | LoadException (exc : string)
  | Loaded (prd : PRD).

(** One entry of the list returned by [run_verification]. *)
Record VerifyResult : Type := mkVerifyResult {
  command : string;
  passed : bool;
  returncode : Z;
  stdout : string;
  stderr : string
}.

(** One constructor per [console.print] call of harness.py, carrying the
    values interpolated into the message (the markup is not rendered). *)
Inductive ConsoleMsg : Type :=
  | ConGitCommitFailed (cmd : list string) (rc : Z)
  | ConRunning (cmd : string)
  | ConPassed
  | ConFailed (rc : Z)
  | ConError (exc : string)
  | ConAgentCommand (model : string)
  | ConNotGitRepo
  | ConPrdNotFound (exc : string)
  | ConRunInitFirst
  | ConInvalidJson (exc : string)
  | ConErrorLoadingPrd (exc : string)
  | ConAllComplete
  | ConNoMoreItems
  | ConCounts (done blocked : Z)
  | ConIteration (iteration max_iterations : Z)
  | ConItem (item_id item_title : string)
  | ConDescription (text : string)
  | ConCriteriaHeader
  | ConFilesHeader
  | ConVerifyHeader
  | ConBullet (text : string)
  | ConResuming (attempt : Z)
  | ConAttempt (attempt : Z)
  | ConRunningAgent
  | ConAgentFailed (agent_error : string)
  | ConMarkedBlocked (item_id : string) (attempt : Z)
  | ConRunningVerification
  | ConNoVerification
  | ConVerificationPassed
  | ConCommitting
  | ConCommitted (commit_msg : string)
  | ConCommitWarning
  | ConVerificationFailed
  | ConStoppedMaxFailures (max_failures : Z)
  | ConStoppedMaxIterations (max_iterations : Z).

(** The calls that reach the platform, in the order they are made. *)
Inductive Event : Type :=
  | EvRun (c : Command) (r : ProcResult)
  | EvLoad (r : LoadResult)
  | EvSave (prd : PRD)
  | EvTouch
  | EvProgress (message : string).

(** How one iteration of the loop dealt with the selected item: the branch of
    [run_loop] that ran (agent failure, verification failure, or verification
    passed together with what [git_commit] did, [None] under [no_commit]). *)
Inductive ItemOutcome : Type :=
  | ItemAgentFailed
  | ItemVerificationFailed
  | ItemDone (commit : option (Result bool)).

(** What [run_loop] does in the end. *)
Inductive Exit : Type :=
  | Returned (code : Z)
  | Raised (exc : string).

(** Control after one pass through the body of the [while] loop. *)
Inductive Ctl : Type :=
  | Stop (e : Exit)
  | Continue (iteration failures : Z).

(** [item.verify or prd.global_config.verify]: the item's own list when it is
    neither [None] nor empty, else the global list. *)
Definition verify_or_global (item : WorkItem) (prd : PRD) : list string :=
  match verify item with
  | Some (c :: cs) => c :: cs
  | _ => global_verify (global_config prd)
  end.

(** Each line of [ls] followed by a line feed. *)
Definition unlines (ls : list string) : string :=
  fold_right (fun l acc => l +:+ nl +:+ acc) EmptyString ls.

(** [chr(10).join(f"- {x}" for x in xs)] *)
Definition bullets (xs : list string) : string :=
  str_join nl (map (fun x => "- " +:+ x) xs).

(** [build_agent_prompt] *)
Definition build_agent_prompt (item : WorkItem) (prd : PRD) (repo_root : Path)
  : string :=
  let progress_path := get_progress_path repo_root in
  let prompt :=
    unlines
      [ "You are an autonomous coding agent working on a software project.";
        "";
        "## Your Task";
        "";
        "You must implement the following work item:";
        "";
        "**ID:** " +:+ id item;
        "**Title:** " +:+ title item;
        "";
        "**Description:**";
        description item;
        "";
        "**Acceptance Criteria:**";
        bullets (acceptance_criteria item);
        "" ] in
  let prompt :=
    match files_hint item with
    | [] => prompt
    | fs => prompt +:+ unlines [ "**Files to focus on:**"; bullets fs; "" ]
    end in
  prompt +:+
  unlines
    [ "## Project Context";
      "";
      "- **Project Name:** " +:+ name (project prd);
      "- **Language:** " +:+ language (project prd);
      "- **Default Branch:** " +:+ default_branch (project prd);
      "";
      "## Rules";
      "";
      "1. Make minimal, focused changes to implement the task";
      "2. Do NOT mark the item as done - the harness will do that after verification";
      "3. Update or create tests as needed to cover your changes";
      "4. Ensure the codebase compiles/runs after your changes";
      "5. Follow existing code style and conventions";
      "6. If you encounter blockers, document them clearly";
      "";
      "## Verification Commands";
      "";
      "After your changes, the following commands will be run to verify success:";
      str_join nl (map (fun cmd => "- `" +:+ cmd +:+ "`") (verify_or_global item prd));
      "";
      "## Long-term Memory";
      "";
      "You can read and write to the progress log file at `" +:+ progress_path
        +:+ "` to maintain context across sessions.";
      "Use this file to:";
      "- Record important decisions and reasoning";
      "- Note any issues encountered";
      "- Track partial progress on complex tasks";
      "- Leave notes for future iterations";
      "";
      "## Instructions";
      "";
      "Implement the task described above. Make the necessary code changes to satisfy all acceptance criteria.";
      "When you are done making changes, simply finish your session - do not try to mark the task as complete." ].

Section WithPlatform.
Context {P : Platform}.

Record RunState : Type := mkRunState {
  world : World;
  trace : list Event;
  console : list ConsoleMsg
}.

Definition init_state (w : World) : RunState :=
  {| world := w; trace := []; console := [] |}.

Definition emit (e : Event) (w : World) (s : RunState) : RunState :=
  {| world := w; trace := trace s ++ [e]; console := console s |}.

(** [console.print(...)] *)
Definition print (m : ConsoleMsg) (s : RunState) : RunState :=
  {| world := world s; trace := trace s; console := console s ++ [m] |}.

Definition print_all (ms : list ConsoleMsg) (s : RunState) : RunState :=
  fold_left (fun s m => print m s) ms s.

(** [subprocess.run(c, cwd=cwd, ...)] *)
Definition run (c : Command) (cwd : Path) (s : RunState) : ProcResult * RunState :=
  let '(r, w) := subprocess_run c cwd (world s) in
  (r, emit (EvRun c r) w s).

(** [load_prd] *)
Definition load_prd (repo_root : Path) (s : RunState) : LoadResult * RunState :=
  let prd_path := get_prd_path repo_root in
  let r :=
    if negb (path_exists prd_path (world s)) then
      FileNotFoundError ("PRD file not found: " +:+ prd_path)
    else
      match read_prd_file prd_path (world s) with
      | ReadJSONDecodeError e => JSONDecodeError e
      | ReadException e => LoadException e
      | Parsed prd => Loaded prd
      end in
  (r, emit (EvLoad r) (world s) s).

(** [save_prd] *)
Definition save_prd (repo_root : Path) (prd : PRD) (s : RunState) : RunState :=
  emit (EvSave prd) (write_prd_file (get_prd_path repo_root) prd (world s)) s.

(** [append_progress] *)
Definition append_progress (repo_root : Path) (message : string) (s : RunState)
  : RunState :=
  let progress_path := get_progress_path repo_root in
  let timestamp := isoformat (utc_now (world s)) in
  emit (EvProgress message)
       (append_text progress_path
          ("[" +:+ timestamp +:+ "] " +:+ message +:+ nl)
          (world s))
       s.

(** [is_git_repo] *)
Definition is_git_repo (path : Path) (s : RunState) : Result bool * RunState :=
  match run (Argv ["git"; "rev-parse"; "--git-dir"]) path s with
  | (Completed rc _ _, s1) => (Ok (rc =? 0), s1)
  | (Threw e, s1) => (Exn e, s1)
  end.

(** [git_commit]: a non-zero exit of [git add] or [git commit] is the
    [CalledProcessError] of [check=True], caught and turned into [False]; a
    failure to launch git at all is not caught. *)
Definition git_commit (repo_root : Path) (message : string) (s : RunState)
  : Result bool * RunState :=
  let add := ["git"; "add"; "-A"] in
  let commit := ["git"; "commit"; "-m"; message] in
  match run (Argv add) repo_root s with
  | (Threw e, s1) => (Exn e, s1)
  | (Completed rc _ _, s1) =>
      if negb (rc =? 0) then (Ok false, print (ConGitCommitFailed add rc) s1)
      else
        match run (Argv ["git"; "diff"; "--cached"; "--quiet"]) repo_root s1 with
        | (Threw e, s2) => (Exn e, s2)
        | (Completed rc2 _ _, s2) =>
            if rc2 =? 0 then (Ok true, s2)
            else
              match run (Argv commit) repo_root s2 with
              | (Threw e, s3) => (Exn e, s3)
              | (Completed rc3 _ _, s3) =>
                  if negb (rc3 =? 0)
                  then (Ok false, print (ConGitCommitFailed commit rc3) s3)
                  else (Ok true, s3)
              end
        end
  end.

(** [run_verification]: one pass of the [for] loop, on the accumulated
    [(all_passed, results)]. *)
Definition verify_command (repo_root : Path)
    (acc : bool * list VerifyResult * RunState) (cmd : string)
  : bool * list VerifyResult * RunState :=
  let '(all_passed, results, s) := acc in
  let s := print (ConRunning cmd) s in
  match run (Shell cmd) repo_root s with
  | (Completed rc out err, s) =>
      let passed := rc =? 0 in
      let results :=
        results ++
        [ {| command := cmd;
             passed := passed;
             returncode := rc;
             stdout := match out with EmptyString => "" | _ => str_suffix 2000 out end;
             stderr := match err with EmptyString => "" | _ => str_suffix 2000 err end |} ] in
      if passed then (all_passed, results, print ConPassed s)
      else (false, results, print (ConFailed rc) s)
  | (Threw e, s) =>
      let results :=
        results ++
        [ {| command := cmd; passed := false; returncode := -1;
             stdout := ""; stderr := e |} ] in
      (false, results, print (ConError e) s)
  end.

Definition run_verification (repo_root : Path) (commands : list string)
    (s : RunState) : bool * list VerifyResult * RunState :=
  fold_left (verify_command repo_root) commands (true, [], s).

(** [run_agent]: [(success, error_message)]. *)
Definition run_agent (repo_root : Path) (prompt model : string) (s : RunState)
  : bool * string * RunState :=
  let agent_command := ["opencode"; "-m"; model; "run"; prompt] in
  let s := print (ConAgentCommand model) s in
  match run (Argv agent_command) repo_root s with
  | (Completed rc _ _, s) =>
      if negb (rc =? 0) then (false, "Exit code " +:+ str_int rc, s)
      else (true, "", s)
  | (Threw e, s) => (false, e, s)
  end.

(** *** The body of the loop of [run_loop], block by block *)

Section Loop.
Variables (repo_root : Path) (model : string).
Variables (max_iterations max_failures : Z) (no_commit : bool).

(** Lines 306-323: the iteration header and the item, on the console. *)
Definition show_item (iteration : Z) (item : WorkItem) (prd : PRD)
    (s : RunState) : RunState :=
  let s := print (ConIteration iteration max_iterations) s in
  let s := print (ConItem (id item) (title item)) s in
  let s := match description item with
           | EmptyString => s
           | d => print (ConDescription d) s
           end in
  let s := match acceptance_criteria item with
           | [] => s
           | cs => print_all (map ConBullet cs) (print ConCriteriaHeader s)
           end in
  let s := match files_hint item with
           | [] => s
           | fs => print_all (map ConBullet fs) (print ConFilesHeader s)
           end in
  let verify_commands_preview := verify_or_global item prd in
  match verify_commands_preview with
  | [] => s
  | cmds => print_all (map ConBullet cmds) (print ConVerifyHeader s)
  end.

(** Lines 325-342: resume, or mark as doing and count the attempt (crash-safe
    write). *)
Definition start_or_resume (i : nat) (item : WorkItem) (is_resuming : bool)
    (prd : PRD) (s : RunState) : WorkItem * PRD * RunState :=
  if is_resuming then
    let s := print (ConResuming (attempts (status item))) s in
    let s := append_progress repo_root
               ("Resuming item " +:+ id item +:+ " (attempt "
                +:+ str_int (attempts (status item)) +:+ "): " +:+ title item) s in
    (item, prd, s)
  else
    let item := with_status (set_state DOING) item in
    let item := with_status (fun st => set_attempts (attempts st + 1) st) item in
    let prd := store i item prd in
    let s := save_prd repo_root prd s in
    let s := print (ConAttempt (attempts (status item))) s in
    let s := append_progress repo_root
               ("Starting item " +:+ id item +:+ " (attempt "
                +:+ str_int (attempts (status item)) +:+ "): " +:+ title item) s in
    (item, prd, s).

(** Lines 350-368: the agent failed. *)
Definition on_agent_failure (i : nat) (item : WorkItem) (prd : PRD)
    (failures : Z) (agent_error : string) (s : RunState)
  : WorkItem * PRD * Z * RunState :=
  let s := print (ConAgentFailed agent_error) s in
  let failures := failures + 1 in
  let item := with_status
                (set_last_error (Some ("Agent error: " +:+ str_prefix 500 agent_error)))
                item in
  let '(item, s) :=
    if attempts (status item) >=? BLOCKED_THRESHOLD then
      let item := with_status (set_state BLOCKED) item in
      (item, print (ConMarkedBlocked (id item) (attempts (status item))) s)
    else (with_status (set_state TODO) item, s) in
  let prd := store i item prd in
  let s := save_prd repo_root prd s in
  let s := append_progress repo_root
             ("Item " +:+ id item +:+ " failed (agent error): "
              +:+ str_prefix 200 agent_error) s in
  (item, prd, failures, s).

(** Lines 370-379: run the verification commands, if there are any. *)
Definition verify_item (item : WorkItem) (prd : PRD) (s : RunState)
  : bool * list VerifyResult * RunState :=
  let s := print ConRunningVerification s in
  let verify_commands := verify_or_global item prd in
  match verify_commands with
  | [] => (true, [], print ConNoVerification s)
  | _ => run_verification repo_root verify_commands s
  end.

(** Lines 381-401: verification passed; mark as done, then commit if
    enabled. *)
Definition on_verification_passed (i : nat) (item : WorkItem) (prd : PRD)
    (s : RunState) : option (Result bool) * WorkItem * PRD * RunState :=
  let s := print ConVerificationPassed s in
  let item := with_status (set_state DONE) item in
  let item := with_status (set_done_at (Some (utc_now (world s)))) item in
  let item := with_status (set_last_error None) item in
  let prd := store i item prd in
  let s := save_prd repo_root prd s in
  let s := append_progress repo_root
             ("Item " +:+ id item +:+ " completed successfully") s in
  if negb no_commit then
    let s := print ConCommitting s in
    let commit_msg := "ralph: Complete " +:+ id item +:+ " - " +:+ title item in
    match git_commit repo_root commit_msg s with
    | (Ok true, s) => (Some (Ok true), item, prd, print (ConCommitted commit_msg) s)
    | (Ok false, s) => (Some (Ok false), item, prd, print ConCommitWarning s)
    | (Exn e, s) => (Some (Exn e), item, prd, s)
    end
  else (None, item, prd, s).

(** Lines 402-424: verification failed. *)
Definition on_verification_failed (i : nat) (item : WorkItem) (prd : PRD)
    (failures : Z) (verify_results : list VerifyResult) (s : RunState)
  : WorkItem * PRD * Z * RunState :=
  let s := print ConVerificationFailed s in
  let failures := failures + 1 in
  let failed_cmds := filter (fun r => passed r = false) verify_results in
  let error_summary :=
    str_join "; "
      (map (fun r => command r +:+ ": " +:+ str_prefix 100 (stderr r))
           (take 3 failed_cmds)) in
  let item := with_status
                (set_last_error
                   (Some ("Verification failed: " +:+ str_prefix 500 error_summary)))
                item in
  let '(item, s) :=
    if attempts (status item) >=? BLOCKED_THRESHOLD then
      let item := with_status (set_state BLOCKED) item in
      (item, print (ConMarkedBlocked (id item) (attempts (status item))) s)
    else (with_status (set_state TODO) item, s) in
  let prd := store i item prd in
  let s := save_prd repo_root prd s in
  let s := append_progress repo_root
             ("Item " +:+ id item +:+ " failed verification: "
              +:+ str_prefix 200 error_summary) s in
  (item, prd, failures, s).

(** Lines 306-424: everything the loop does with the selected item. The
    result names the branch taken and carries the item, the document in
    memory and the failure count as the iteration leaves them. *)
Definition process_item (i : nat) (item : WorkItem) (is_resuming : bool)
    (prd : PRD) (iteration failures : Z) (s : RunState)
  : ItemOutcome * WorkItem * PRD * Z * RunState :=
  let s := show_item iteration item prd s in
  let '(item, prd, s) := start_or_resume i item is_resuming prd s in
  let prompt := build_agent_prompt item prd repo_root in
  let s := print ConRunningAgent s in
  let '(agent_success, agent_error, s) := run_agent repo_root prompt model s in
  if negb agent_success then
    let '(item, prd, failures, s) :=
      on_agent_failure i item prd failures agent_error s in
    (ItemAgentFailed, item, prd, failures, s)
  else
    let '(verify_passed, verify_results, s) := verify_item item prd s in
    if verify_passed then
      let '(commit, item, prd, s) := on_verification_passed i item prd s in
      (ItemDone commit, item, prd, failures, s)
    else
      let '(item, prd, failures, s) :=
        on_verification_failed i item prd failures verify_results s in
      (ItemVerificationFailed, item, prd, failures, s).

(** Lines 286-424: one pass through the body of the [while] loop. *)
Definition loop_body (iteration failures : Z) (s : RunState) : Ctl * RunState :=
  match load_prd repo_root s with
  | (Loaded prd, s) =>
      if all_done prd then
        let s := print ConAllComplete s in
        let s := append_progress repo_root "=== All items complete ===" s in
        (Stop (Returned 0), s)
      else
        match get_next_item prd with
        | (None, _) =>
            let s := print ConNoMoreItems s in
            let counts := count_by_state prd in
            let s := print (ConCounts (counts DONE) (counts BLOCKED)) s in
            let s := append_progress repo_root "=== No more items to process ===" s in
            (Stop (Returned (if counts BLOCKED =? 0 then 0 else 1)), s)
        | (Some (i, item), is_resuming) =>
            let iteration := iteration + 1 in
            match process_item i item is_resuming prd iteration failures s with
            | (ItemDone (Some (Exn e)), _, _, _, s) => (Stop (Raised e), s)
            | (_, _, _, failures, s) => (Continue iteration failures, s)
            end
        end
  | (FileNotFoundError e, s) | (JSONDecodeError e, s) | (LoadException e, s) =>
      (Stop (Raised e), s)
  end.

(** Lines 426-443: the loop ended due to limits. *)
Definition after_loop (iteration failures : Z) (s : RunState) : Exit * RunState :=
  if failures >=? max_failures then
    let s := print (ConStoppedMaxFailures max_failures) s in
    let s := append_progress repo_root
               ("=== Stopped: Max failures (" +:+ str_int max_failures
                +:+ ") reached ===") s in
    (Returned 1, s)
  else if iteration >=? max_iterations then
    let s := print (ConStoppedMaxIterations max_iterations) s in
    let s := append_progress repo_root
               ("=== Stopped: Max iterations (" +:+ str_int max_iterations
                +:+ ") reached ===") s in
    (Returned 1, s)
  else (Returned 0, s).

(** Line 285: the [while] loop. Every pass that continues adds one to
    [iteration], so [max_iterations - iteration] passes are enough;
    [None] is a loop cut short by [fuel]. *)
Fixpoint while_loop (fuel : nat) (iteration failures : Z) (s : RunState)
  : option (Exit * RunState) :=
  if (iteration <? max_iterations) && (failures <? max_failures) then
    match fuel with
    | O => None
    | S fuel' =>
        match loop_body iteration failures s with
        | (Stop e, s) => Some (e, s)
        | (Continue iteration failures, s) => while_loop fuel' iteration failures s
        end
    end
  else Some (after_loop iteration failures s).

(** [run_loop], started in the world [w]. *)
Definition run_loop (w : World) : option (Exit * RunState) :=
  let s := init_state w in
  match is_git_repo repo_root s with
  | (Exn e, s) => Some (Raised e, s)
  | (Ok false, s) => Some (Returned 1, print ConNotGitRepo s)
  | (Ok true, s) =>
      match load_prd repo_root s with
      | (FileNotFoundError e, s) =>
          Some (Returned 1, print ConRunInitFirst (print (ConPrdNotFound e) s))
      | (JSONDecodeError e, s) => Some (Returned 1, print (ConInvalidJson e) s)
      | (LoadException e, s) => Some (Returned 1, print (ConErrorLoadingPrd e) s)
      | (Loaded prd, s) =>
          let progress_path := get_progress_path repo_root in
          let s := if negb (path_exists progress_path (world s))
                   then emit EvTouch (touch progress_path (world s)) s
                   else s in
          let iteration := 0 in
          let failures := 0 in
          let s := append_progress repo_root
                     ("=== Harness started (max_iterations=" +:+ str_int max_iterations
                      +:+ ", max_failures=" +:+ str_int max_failures +:+ ") ===") s in
          while_loop (Z.to_nat max_iterations) iteration failures s
      end
  end.

End Loop.
End WithPlatform.
End Harness.
Export Harness.

(** ** Vocabulary of the properties *)

(** The documents written by [save_prd], oldest first. *)
Definition saves (tr : list Event) : list PRD :=
  omap (fun e => match e with EvSave prd => Some prd | _ => None end) tr.

(** The documents [load_prd] returned, oldest first. *)
Definition loads (tr : list Event) : list PRD :=
  omap (fun e => match e with EvLoad (Loaded prd) => Some prd | _ => None end) tr.

(** The lines handed to [append_progress], oldest first. *)
Definition progress_lines (tr : list Event) : list string :=
  omap (fun e => match e with EvProgress m => Some m | _ => None end) tr.

Definition is_run (e : Event) : Prop :=
  match e with EvRun _ _ => True | _ => False end.

(** [item] is the first item of [prd], in document order, in state [st]; [i]
    is its position. *)
Definition first_in_state (st : ItemState) (prd : PRD) (i : nat) (item : WorkItem)
  : Prop :=
  items prd !! i = Some item /\ state (status item) = st /\
  forall j other, items prd !! j = Some other -> (j < i)%nat ->
                  state (status other) <> st.

Definition some_in_state (st : ItemState) (prd : PRD) : Prop :=
  exists it, it ∈ items prd /\ state (status it) = st.

Definition none_in_state (st : ItemState) (prd : PRD) : Prop :=
  forall it, it ∈ items prd -> state (status it) <> st.

(** [done_at is not None] iff [state == done]. *)
Definition done_at_iff_done (it : WorkItem) : Prop :=
  is_Some (done_at (status it)) <-> state (status it) = DONE.

Definition done_at_consistent (prd : PRD) : Prop :=
  Forall done_at_iff_done (items prd).

(** At most one item of the document is in state doing. *)
Definition at_most_one_doing (prd : PRD) : Prop :=
  count_by_state prd DOING <= 1.

(** How [run_verification] records the outcome [o] of a command. *)
Definition recorded_as (o : ProcResult) (r : VerifyResult) : Prop :=
  match o with
  | Completed rc out err =>
      passed r = (rc =? 0) /\ returncode r = rc /\
      stdout r = str_suffix 2000 out /\ stderr r = str_suffix 2000 err
  | Threw e =>
      passed r = false /\ returncode r = -1 /\ stdout r = "" /\ stderr r = e
  end.

(** The argument vector [run_agent] launches. *)
Definition agent_command (model prompt : string) : Command :=
  Argv ["opencode"; "-m"; model; "run"; prompt].

(** The two lines [run_loop] logs when it stops on a limit. *)
Definition max_failures_line (max_failures : Z) : string :=
  "=== Stopped: Max failures (" +:+ str_int max_failures +:+ ") reached ===".

Definition max_iterations_line (max_iterations : Z) : string :=
  "=== Stopped: Max iterations (" +:+ str_int max_iterations +:+ ") reached ===".

Definition harness_started_line (max_iterations max_failures : Z) : string :=
  "=== Harness started (max_iterations=" +:+ str_int max_iterations
  +:+ ", max_failures=" +:+ str_int max_failures +:+ ") ===".

(** The status of an item after a fresh start, after a failure with the
    error text [err], and after it passed verification at time [t]. *)
Definition started (st : ItemStatus) : ItemStatus :=
  {| state := DOING; attempts := attempts st + 1;
     last_error := last_error st; done_at := done_at st |}.

Definition failed (err : string) (st : ItemStatus) : ItemStatus :=
  {| state := if attempts st >=? BLOCKED_THRESHOLD then BLOCKED else TODO;
     attempts := attempts st; last_error := Some err; done_at := done_at st |}.

Definition completed (t : datetime) (st : ItemStatus) : ItemStatus :=
  {| state := DONE; attempts := attempts st;
     last_error := None; done_at := Some t |}.

(** The item and the document as the agent sees them in an iteration. *)
Definition item_in_progress (item : WorkItem) (is_resuming : bool) : WorkItem :=
  if is_resuming then item else with_status started item.

Definition prd_in_progress (i : nat) (item : WorkItem) (is_resuming : bool)
    (prd : PRD) : PRD :=
  if is_resuming then prd else store i (with_status started item) prd.

(** The events [evs] keep [Q]: if every document loaded in them has [Q],
    so has every document saved in them. *)
Definition respects (Q : PRD -> Prop) (evs : list Event) : Prop :=
  Forall Q (loads evs) -> Forall Q (saves evs).

(** ** A small concrete platform

    A deterministic world to run the harness in: the document on disk, a
    clock that ticks on every sub-process, and fixed exit codes for the
    agent and for [git commit]. The shell knows [true] and [false]. *)

Module Sim.

Record SimWorld : Type := mkSimWorld {
  disk : option PRD;
  progress_file : option (list string);
  clock : Z;
  git_repo : bool;
  agent_rc : Z;
  commit_rc : Z;
  shell_broken : bool
}.

Definition tick (w : SimWorld) : SimWorld :=
  {| disk := disk w; progress_file := progress_file w; clock := clock w + 1;
     git_repo := git_repo w; agent_rc := agent_rc w; commit_rc := commit_rc w;
     shell_broken := shell_broken w |}.

Definition sim_run (c : Command) (cwd : Path) (w : SimWorld)
  : ProcResult * SimWorld :=
  let r :=
    match c with
    | Argv ("git" :: "rev-parse" :: _) =>
        Completed (if git_repo w then 0 else 128) "" ""
    | Argv ("git" :: "add" :: _) => Completed 0 "" ""
    | Argv ("git" :: "diff" :: _) => Completed 1 "" ""
    | Argv ("git" :: "commit" :: _) => Completed (commit_rc w) "" ""
    | Argv ("opencode" :: _) => Completed (agent_rc w) "" ""
    | Argv _ => Threw "No such file or directory"
    | Shell line =>
        if shell_broken w then Threw "Resource temporarily unavailable"
        else if String.eqb line "true" then Completed 0 "" ""
        else if String.eqb line "false" then Completed 1 "" "failed"
        else Completed 127 "" ("sh: " +:+ line +:+ ": not found")
    end in
  (r, tick w).

Definition sim_write (path : Path) (prd : PRD) (w : SimWorld) : SimWorld :=
  {| disk := Some prd; progress_file := progress_file w; clock := clock w;
     git_repo := git_repo w; agent_rc := agent_rc w; commit_rc := commit_rc w;
     shell_broken := shell_broken w |}.

Definition sim_set_progress (l : list string) (w : SimWorld) : SimWorld :=
  {| disk := disk w; progress_file := Some l; clock := clock w;
     git_repo := git_repo w; agent_rc := agent_rc w; commit_rc := commit_rc w;
     shell_broken := shell_broken w |}.

Definition sim_exists (path : Path) (w : SimWorld) : bool :=
  if String.eqb path (get_prd_path ".") then bool_decide (is_Some (disk w))
  else bool_decide (is_Some (progress_file w)).

Definition sim_platform : Platform :=
  {| World := SimWorld;
     subprocess_run := sim_run;
     path_exists := sim_exists;
     read_prd_file := fun _ w =>
       match disk w with
       | Some prd => Parsed prd
       | None => ReadException "No such file or directory"
       end;
     write_prd_file := sim_write;
     touch := fun _ w => sim_set_progress (default [] (progress_file w)) w;
     append_text := fun _ line w =>
       sim_set_progress (default [] (progress_file w) ++ [line]) w;
     utc_now := clock;
     isoformat := str_int |}.

Definition simple_item (item_id : string) (v : option (list string))
    (st : ItemStatus) : WorkItem :=
  {| id := item_id; title := "Task " +:+ item_id; description := "";
     acceptance_criteria := []; files_hint := []; verify := v; status := st |}.

Definition backlog (l : list WorkItem) : PRD :=
  {| version := 1;
     project := {| name := "demo"; language := "unknown"; default_branch := "main" |};
     global_config := {| global_verify := [] |};
     items := l |}.

Definition world_with (prd : PRD) (agent commit : Z) : SimWorld :=
  {| disk := Some prd; progress_file := None; clock := 100; git_repo := true;
     agent_rc := agent; commit_rc := commit; shell_broken := false |}.

Definition status_of (st : ItemState) (n : Z) (t : option datetime) : ItemStatus :=
  {| state := st; attempts := n; last_error := None; done_at := t |}.

(** [run_loop] in the simulated world, in the repository ["."] with the
    model ["m"]. *)
Definition sim_run_loop (max_iterations max_failures : Z) (no_commit : bool)
    (w : SimWorld) : option (Exit * @RunState sim_platform) :=
  @run_loop sim_platform "." "m" max_iterations max_failures no_commit w.

Definition exit_of {P : Platform} (r : option (Exit * @RunState P)) : option Exit :=
  fst <$> r.

Definition final_disk (r : option (Exit * @RunState sim_platform)) : option PRD :=
  match r with
  | Some (_, s) => disk (@world sim_platform s : SimWorld)
  | None => None
  end.

(** The components of the result of [process_item]. *)
Definition outcome_of {A B C D E} (r : A * B * C * D * E) : A := r.1.1.1.1.
Definition item_of {A B C D E} (r : A * B * C * D * E) : B := r.1.1.1.2.
Definition prd_of {A B C D E} (r : A * B * C * D * E) : C := r.1.1.2.
Definition failures_of {A B C D E} (r : A * B * C * D * E) : D := r.1.2.
Definition state_of {A B C D E} (r : A * B * C * D * E) : E := r.2.

Definition last_progress (r : option (Exit * @RunState sim_platform))
  : option string :=
  match r with
  | Some (_, s) => last (progress_lines (trace s))
  | None => None
  end.

(** *** Sample backlogs and runs *)

(** One item, already started twice. *)
Definition item_twice_tried : WorkItem :=
  simple_item "a" None (status_of TODO 2 None).

(** The third attempt, with an agent that exits with code 1. *)
Definition third_failure :=
  @process_item sim_platform "." "m" 50 false 0%nat item_twice_tried false
    (backlog [item_twice_tried]) 1 0
    (@init_state sim_platform (world_with (backlog [item_twice_tried]) 1 0)).

(** A fresh item, and its first attempt with an agent that succeeds. *)
Definition item_fresh : WorkItem := simple_item "a" None default_status.

Definition first_attempt :=
  @process_item sim_platform "." "m" 50 false 0%nat item_fresh false
    (backlog [item_fresh]) 1 0
    (@init_state sim_platform (world_with (backlog [item_fresh]) 0 0)).

(** A backlog with items in every state; the third item is the first one in
    state doing. *)
Definition mixed_backlog : PRD :=
  backlog [ simple_item "a" None (status_of DONE 1 (Some 5));
            simple_item "b" None (status_of TODO 0 None);
            simple_item "c" None (status_of DOING 1 None);
            simple_item "d" None (status_of DOING 2 None);
            simple_item "e" None (status_of BLOCKED 3 None) ].

(** A backlog whose only item is blocked. *)
Definition blocked_backlog : PRD :=
  backlog [ simple_item "a" (Some ["false"]) (status_of BLOCKED 3 None) ].

(** Two items to do. *)
Definition two_todo_backlog : PRD :=
  backlog [ simple_item "a" None default_status;
            simple_item "b" None default_status ].

(** An item in state todo that carries a [done_at], as a hand-edited
    document may. *)
Definition stale_done_at_backlog : PRD :=
  backlog [ simple_item "a" None (status_of TODO 0 (Some 7)) ].

(** A backlog whose items are all done. *)
Definition all_done_backlog : PRD :=
  backlog [ simple_item "a" None (status_of DONE 1 (Some 5));
            simple_item "b" None (status_of DONE 2 (Some 9)) ].

(** An interrupted run left the first item in state doing. *)
Definition interrupted_backlog : PRD :=
  backlog [ simple_item "a" None (status_of DOING 1 None);
            simple_item "b" (Some ["false"]) default_status ].

(** The start of a run in a world where [git commit] exits with code 1. *)
Definition commit_fails_world : SimWorld := world_with (backlog [item_fresh]) 0 1.

Definition commit_fails_loaded :=
  @load_prd sim_platform "." (@init_state sim_platform commit_fails_world).

Definition commit_fails_iteration :=
  @process_item sim_platform "." "m" 50 false 0%nat item_fresh false
    (backlog [item_fresh]) (0 + 1) 0 commit_fails_loaded.2.

(** The start of a run on a backlog that is all done. *)
Definition all_done_world : SimWorld := world_with all_done_backlog 0 0.

Definition all_done_checked :=
  @is_git_repo sim_platform "." (@init_state sim_platform all_done_world).

Definition all_done_loaded := @load_prd sim_platform "." all_done_checked.2.

End Sim.

(** ** cli.py: the [status], [validate] and [reset] commands

    A command ends with an exit code: the code of [raise typer.Exit(code)],
    or 0 when it returns. What it prints goes to the console of cli.py. *)

Module Cli.

(** One constructor per [console.print] call of the three commands, carrying
    the values interpolated into the message. *)
Inductive CliMsg : Type :=
  | CliRalphDirNotFound
  | CliRunInitFirst
  | CliErrorLoadingPrd (exc : string)
  | CliProject (project_name : string)
  | CliLanguage (project_language : string)
  | CliBlank
  | CliSummary
  | CliTodo (n : Z)
  | CliDoing (n : Z)
  | CliDone (n : Z)
  | CliBlocked (n : Z)
  | CliTable (table_title : string) (columns : list string) (rows : list (list string))
  | CliPathNotFound (path : Path)
  | CliValid
  | CliVersion (v : Z)
  | CliProjectName (project_name : string)
  | CliItems (n : Z)
  | CliGlobalVerify (n : Z)
  | CliInvalidJson (exc : string)
  | CliValidationError (exc : string)
  | CliItemNotFound (item_id : string)
  | CliItemBlocked (item_id : string)
  | CliResetDone (reset_count : Z).

(** [ItemState.value] *)
Definition state_value (st : ItemState) : string :=
  match st with
  | TODO => "todo"
  | DOING => "doing"
  | DONE => "done"
  | BLOCKED => "blocked"
  end.

(** The table [state_colors] of [status]. *)
Definition state_colors (st : ItemState) : string :=
  match st with
  | TODO => "white"
  | DOING => "yellow"
  | DONE => "green"
  | BLOCKED => "red"
  end.

(** The cells of the row [status] adds to the table for [item]. *)
Definition status_row (item : WorkItem) : list string :=
  let st := state (status item) in
  let state_str :=
    "[" +:+ state_colors st +:+ "]" +:+ state_value st
    +:+ "[/" +:+ state_colors st +:+ "]" in
  let error_str :=
    match last_error (status item) with
    | Some e =>
        if negb (String.eqb e "") && (50 <? String.length e)%nat
        then str_prefix 50 e +:+ "..."
        else e
    | None => ""
    end in
  [ id item;
    str_prefix 40 (title item)
    +:+ (if (40 <? String.length (title item))%nat then "..." else "");
    state_str;
    str_int (attempts (status item));
    error_str ].

(** The four assignments that put an item back to todo (lines 391-394 and
    402-405). *)
Definition reset_status (item : WorkItem) : WorkItem :=
  let item := with_status (set_state TODO) item in
  let item := with_status (set_attempts 0) item in
  let item := with_status (set_last_error None) item in
  with_status (set_done_at None) item.

(** The [for] loop of [reset] over all items: the items as the loop leaves
    them, and [reset_count]. *)
Fixpoint reset_all (include_blocked : bool) (l : list WorkItem) (reset_count : Z)
  : list WorkItem * Z :=
  match l with
  | [] => ([], reset_count)
  | item :: rest =>
      if bool_decide (state (status item) = BLOCKED) && negb include_blocked then
        let '(rest, reset_count) := reset_all include_blocked rest reset_count in
        (item :: rest, reset_count)
      else if negb (bool_decide (state (status item) = TODO)) then
        let '(rest, reset_count) :=
          reset_all include_blocked rest (reset_count + 1) in
        (reset_status item :: rest, reset_count)
      else
        let '(rest, reset_count) := reset_all include_blocked rest reset_count in
        (item :: rest, reset_count)
  end.

Section WithPlatform.
Context {P : Platform}.

(** [status]; the name [status] is the field of [WorkItem]. *)
Definition status_command (repo_root : Path) (s : RunState)
  : Z * list CliMsg * RunState :=
  match load_prd repo_root s with
  | (FileNotFoundError _, s) => (1, [CliRalphDirNotFound; CliRunInitFirst], s)
  | (JSONDecodeError e, s) | (LoadException e, s) =>
      (1, [CliErrorLoadingPrd e], s)
  | (Loaded prd, s) =>
      let counts := count_by_state prd in
      (0,
       [ CliProject (name (project prd));
         CliLanguage (language (project prd));
         CliBlank;
         CliSummary;
         CliTodo (counts TODO);
         CliDoing (counts DOING);
         CliDone (counts DONE);
         CliBlocked (counts BLOCKED);
         CliBlank;
         CliTable "Work Items"
           ["ID"; "Title"; "State"; "Attempts"; "Last Error"]
           (map status_row (items prd)) ],
       s)
  end.

(** [validate] *)
Definition validate (repo_root : Path) (s : RunState)
  : Z * list CliMsg * RunState :=
  let prd_path := get_prd_path repo_root in
  if negb (path_exists prd_path (world s)) then
    (1, [CliPathNotFound prd_path], s)
  else
    match load_prd repo_root s with
    | (Loaded prd, s) =>
        (0,
         [ CliValid;
           CliVersion (version prd);
           CliProjectName (name (project prd));
           CliItems (Z.of_nat (length (items prd)));
           CliGlobalVerify (Z.of_nat (length (global_verify (global_config prd)))) ],
         s)
    | (JSONDecodeError e, s) => (1, [CliInvalidJson e], s)
    | (FileNotFoundError e, s) | (LoadException e, s) =>
        (1, [CliValidationError e], s)
    end.

(** [reset]: [item_id] is the optional argument; an empty string counts as
    no argument ([if item_id:]). *)
Definition reset (repo_root : Path) (item_id : option string)
    (include_blocked : bool) (s : RunState) : Z * list CliMsg * RunState :=
  match load_prd repo_root s with
  | (FileNotFoundError e, s) | (JSONDecodeError e, s) | (LoadException e, s) =>
      (1, [CliErrorLoadingPrd e], s)
  | (Loaded prd, s) =>
      match item_id with
      | Some (String c rest) =>
          let item_id := String c rest in
          match get_item_by_id prd item_id with
          | None => (1, [CliItemNotFound item_id], s)
          | Some (i, item) =>
              if bool_decide (state (status item) = BLOCKED) && negb include_blocked
              then (1, [CliItemBlocked item_id], s)
              else
                let item := reset_status item in
                let prd := store i item prd in
                let reset_count := 1 in
                let s := save_prd repo_root prd s in
                (0, [CliResetDone reset_count], s)
          end
      | _ =>
          let '(l, reset_count) := reset_all include_blocked (items prd) 0 in
          let prd := with_items l prd in
          let s := save_prd repo_root prd s in
          (0, [CliResetDone reset_count], s)
      end
  end.

End WithPlatform.
End Cli.
Export Cli.

(** ** More vocabulary *)

(** [sub] occurs in [s]. *)
Definition str_contains (sub s : string) : Prop :=
  exists pre post, s = pre +:+ sub +:+ post.

Definition is_shell_run (e : Event) : Prop :=
  match e with EvRun (Shell _) _ => True | _ => False end.

Definition is_git_run (e : Event) : Prop :=
  match e with EvRun (Argv (prog :: _)) _ => prog = "git" | _ => False end.

(** The launches of the agent in a trace: the arguments after [opencode]
    and what the launch gave. *)
Definition agent_runs (tr : list Event) : list (list string * ProcResult) :=
  omap (fun e =>
          match e with
          | EvRun (Argv (prog :: args)) r =>
              if String.eqb prog "opencode" then Some (args, r) else None
          | _ => None
          end) tr.

(** The item fields the harness and [reset] never assign. *)
Definition same_description (a b : WorkItem) : Prop :=
  id a = id b /\ title a = title b /\ description a = description b /\
  acceptance_criteria a = acceptance_criteria b /\
  files_hint a = files_hint b /\ verify a = verify b.

(** The status of an item as [ItemStatus()] and [reset] make it. *)
Definition is_reset (it : WorkItem) : Prop := status it = default_status.

(** The three commands of [git_commit]. *)
Definition git_add : Command := Argv ["git"; "add"; "-A"].
Definition git_diff_cached : Command :=
  Argv ["git"; "diff"; "--cached"; "--quiet"].
Definition git_commit_m (message : string) : Command :=
  Argv ["git"; "commit"; "-m"; message].

(** The process ran to its end with return code [rc]. *)
Definition exited (rc : Z) (o : ProcResult) : Prop :=
  exists out err, o = Completed rc out err.

Definition exited_nonzero (o : ProcResult) : Prop :=
  exists rc out err, o = Completed rc out err /\ rc <> 0.

(** [t] is the tail of [s] of at most [n] characters. *)
Definition is_tail (n : nat) (s t : string) : Prop :=
  String.length t = Nat.min n (String.length s) /\ exists pre, s = pre +:+ t.

(** [t] is the head of [s] of at most [n] characters. *)
Definition is_head (n : nat) (s t : string) : Prop :=
  String.length t = Nat.min n (String.length s) /\ exists post, s = t +:+ post.

(** The exception text of a failed [load_prd]. *)
Definition load_error (r : LoadResult) : option string :=
  match r with
  | Loaded _ => None
  | FileNotFoundError e | JSONDecodeError e | LoadException e => Some e
  end.

(** How many failures an outcome adds to the failure counter. *)
Definition failure_of (o : ItemOutcome) : Z :=
  match o with
  | ItemDone _ => 0
  | ItemAgentFailed | ItemVerificationFailed => 1
  end.

(** The command of [is_git_repo]. *)
Definition git_rev_parse : Command := Argv ["git"; "rev-parse"; "--git-dir"].

(** The event [ev] is the failed reload, or the failed launch of git, that
    raised the exception with text [e]. *)
Definition raise_event (e : string) (ev : Event) : Prop :=
  match ev with
  | EvLoad r => load_error r = Some e
  | EvRun (Argv (prog :: _)) (Threw e') => prog = "git" /\ e' = e
  | _ => False
  end.

(** The items the loop of [reset] over all items leaves alone: those in
    state todo, and those in state blocked unless blocked items are
    included. *)
Definition reset_skips (include_blocked : bool) (it : WorkItem) : bool :=
  bool_decide (state (status it) = TODO)
  || (bool_decide (state (status it) = BLOCKED) && negb include_blocked).

(** A row of the table of [status] for the item [it]: five cells, the title
    cut to 40 characters and the error to 50, each then marked with three
    dots. *)
Definition bounded_row (it : WorkItem) (row : list string) : Prop :=
  exists t st e,
    row = [id it; t; st; str_int (attempts (status it)); e] /\
    (String.length t <= 43)%nat /\
    ((String.length (title it) <= 40)%nat -> t = title it) /\
    (String.length e <= 53)%nat /\
    (last_error (status it) = None -> e = "") /\
    (forall err, last_error (status it) = Some err ->
                 (String.length err <= 50)%nat -> e = err).

(** *** A sample document for the commands of cli.py *)

Module CliSamples.
Import Sim.

Definition reset_world : SimWorld := world_with mixed_backlog 0 0.

Definition reset_loaded :=
  @load_prd sim_platform "." (@init_state sim_platform reset_world).

Definition item_c : WorkItem := simple_item "c" None (status_of DOING 1 None).

End CliSamples.

(** *** An iteration on [mixed_backlog]: its third item is resumed *)

Module IterationSamples.
Import Sim CliSamples.

Definition mixed_iteration :=
  @process_item sim_platform "." "m" 50 false 2%nat item_c true mixed_backlog
    1 0 (@init_state sim_platform reset_world).

End IterationSamples.

(** *** A cooperative environment *)

(** The document [prd] is what [load_prd] finds in the world [w]. *)
Definition disk_is {P : Platform} (repo_root : Path) (w : World) (prd : PRD)
  : Prop :=
  path_exists (get_prd_path repo_root) w = true /\
  read_prd_file (get_prd_path repo_root) w = Parsed prd.

(** Files keep what is written to them, sub-processes and the progress log
    leave the document alone, the repository check, the agent and every
    verification command exit with code 0, and git can be launched. *)
Definition cooperative {P : Platform} (repo_root : Path) (model : string)
  : Prop :=
  (forall prd w,
     disk_is repo_root (write_prd_file (get_prd_path repo_root) prd w) prd) /\
  (forall c w prd,
     disk_is repo_root w prd ->
     disk_is repo_root (subprocess_run c repo_root w).2 prd) /\
  (forall line w prd,
     disk_is repo_root w prd ->
     disk_is repo_root (append_text (get_progress_path repo_root) line w) prd) /\
  (forall w prd,
     disk_is repo_root w prd ->
     disk_is repo_root (touch (get_progress_path repo_root) w) prd) /\
  (forall w, exited 0 (subprocess_run git_rev_parse repo_root w).1) /\
  (forall prompt w,
     exited 0 (subprocess_run (agent_command model prompt) repo_root w).1) /\
  (forall line w, exited 0 (subprocess_run (Shell line) repo_root w).1) /\
  (forall args w e,
     (subprocess_run (Argv ("git" :: args)) repo_root w).1 <> Threw e).

(** The number of items a run still has to work on: those in state todo or
    doing. *)
Definition actionable (prd : PRD) : Z :=
  count_by_state prd TODO + count_by_state prd DOING.

(** A platform where everything goes well: the world is the document on
    disk, every process exits with code 0. *)
Definition ideal_platform : Platform :=
  {| World := option PRD;
     subprocess_run := fun _ _ w => (Completed 0 "" "", w);
     path_exists := fun _ w => bool_decide (is_Some w);
     read_prd_file := fun _ w =>
       match w with
       | Some prd => Parsed prd
       | None => ReadException "No such file or directory"
       end;
     write_prd_file := fun _ prd _ => Some prd;
     touch := fun _ w => w;
     append_text := fun _ _ w => w;
     utc_now := fun _ => 0;
     isoformat := str_int |}.

(** ** The selector *)

Section Selector.

Lemma some_in_state_find st prd :
  some_in_state st prd -> is_Some (list_find (has_state st) (items prd)).
Proof.
  intros (it & Hin & Hst). eapply list_find_elem_of; [exact Hin | exact Hst].
Qed.

Lemma none_in_state_find st prd :
  none_in_state st prd -> list_find (has_state st) (items prd) = None.
Proof.
  intros Hnone. apply list_find_None, Forall_forall.
  intros it Hin. apply Hnone, Hin.
Qed.

Lemma find_first_in_state st prd i item :
  list_find (has_state st) (items prd) = Some (i, item) ->
  first_in_state st prd i item.
Proof.
  intros Hfind. apply list_find_Some in Hfind as (Hlk & Hst & Hbefore).
  repeat split; [exact Hlk | exact Hst |].
  intros j other Hj Hlt. exact (Hbefore j other Hj Hlt).
Qed.

Lemma find_none_in_state st prd :
  list_find (has_state st) (items prd) = None -> none_in_state st prd.
Proof.
  intros Hfind it Hin. rewrite list_find_None, Forall_forall in Hfind.
  exact (Hfind it Hin).
Qed.

(** What each answer of the selector means. *)
Lemma get_next_item_cases prd :
  match get_next_item prd with
  | (Some (i, item), true) => first_in_state DOING prd i item
  | (Some (i, item), false) =>
      none_in_state DOING prd /\ first_in_state TODO prd i item
  | (None, b) => b = false /\ none_in_state DOING prd /\ none_in_state TODO prd
  end.
Proof.
  unfold get_next_item.
  destruct (list_find (has_state DOING) (items prd)) as [[i item]|] eqn:Hd.
  - by apply find_first_in_state.
  - destruct (list_find (has_state TODO) (items prd)) as [[i item]|] eqn:Ht.
    + split; [by apply find_none_in_state | by apply find_first_in_state].
    + repeat split; by apply find_none_in_state.
Qed.

(** C3. The selector returns the first item in document order whose state is
    doing, with [is_resuming = true], when there is one; otherwise the first
    item whose state is todo, with [is_resuming = false]; and no item when
    the document has neither. *)
Theorem get_next_item_policy prd :
  (some_in_state DOING prd ->
   exists i item, get_next_item prd = (Some (i, item), true)
                  /\ first_in_state DOING prd i item) /\
  (none_in_state DOING prd -> some_in_state TODO prd ->
   exists i item, get_next_item prd = (Some (i, item), false)
                  /\ first_in_state TODO prd i item) /\
  (none_in_state DOING prd -> none_in_state TODO prd ->
   get_next_item prd = (None, false)).
Proof.
  unfold get_next_item. repeat split.
  - intros Hsome. destruct (some_in_state_find _ _ Hsome) as [[i item] Hfind].
    exists i, item. rewrite Hfind. split; [done | by apply find_first_in_state].
  - intros Hnone Hsome. rewrite (none_in_state_find _ _ Hnone).
    destruct (some_in_state_find _ _ Hsome) as [[i item] Hfind].
    exists i, item. rewrite Hfind. split; [done | by apply find_first_in_state].
  - intros Hd Ht.
    by rewrite (none_in_state_find _ _ Hd), (none_in_state_find _ _ Ht).
Qed.

End Selector.

(** ** What each operation adds to the trace *)

Section Traces.
Context {P : Platform}.

Lemma saves_app tr1 tr2 : saves (tr1 ++ tr2) = saves tr1 ++ saves tr2.
Proof. apply omap_app. Qed.

Lemma loads_app tr1 tr2 : loads (tr1 ++ tr2) = loads tr1 ++ loads tr2.
Proof. apply omap_app. Qed.

Lemma progress_lines_app tr1 tr2 :
  progress_lines (tr1 ++ tr2) = progress_lines tr1 ++ progress_lines tr2.
Proof. apply omap_app. Qed.

Lemma runs_no_saves evs : Forall is_run evs -> saves evs = [].
Proof.
  induction 1 as [|e evs He _ IH]; [done|].
  destruct e; simpl in *; done.
Qed.

Lemma runs_no_loads evs : Forall is_run evs -> loads evs = [].
Proof.
  induction 1 as [|e evs He _ IH]; [done|].
  destruct e; simpl in *; done.
Qed.

Lemma trace_print m (s : RunState) : trace (print m s) = trace s.
Proof. reflexivity. Qed.

Lemma world_print m (s : RunState) : world (print m s) = world s.
Proof. reflexivity. Qed.

Lemma trace_print_all ms (s : RunState) : trace (print_all ms s) = trace s.
Proof.
  revert s. induction ms as [|m ms IH]; intros s; [done|].
  simpl. by rewrite IH.
Qed.

Lemma trace_emit e w (s : RunState) : trace (emit e w s) = trace s ++ [e].
Proof. reflexivity. Qed.

Lemma trace_run c cwd (s s' : RunState) r :
  run c cwd s = (r, s') -> trace s' = trace s ++ [EvRun c r].
Proof.
  unfold run. destruct (subprocess_run c cwd (world s)) as [r0 w].
  intros [= <- <-]. reflexivity.
Qed.

Lemma trace_save_prd repo_root prd (s : RunState) :
  trace (save_prd repo_root prd s) = trace s ++ [EvSave prd].
Proof. reflexivity. Qed.

Lemma trace_append_progress repo_root m (s : RunState) :
  trace (append_progress repo_root m s) = trace s ++ [EvProgress m].
Proof. reflexivity. Qed.

Lemma trace_load_prd repo_root (s s' : RunState) r :
  load_prd repo_root s = (r, s') -> trace s' = trace s ++ [EvLoad r].
Proof. unfold load_prd. intros [= <- <-]. reflexivity. Qed.

Lemma trace_is_git_repo path (s s' : RunState) r :
  is_git_repo path s = (r, s') ->
  exists o, trace s' = trace s ++ [EvRun (Argv ["git"; "rev-parse"; "--git-dir"]) o].
Proof.
  unfold is_git_repo.
  destruct (run _ path s) as [o s1] eqn:Hrun. apply trace_run in Hrun.
  destruct o; intros [= <- <-]; eexists; exact Hrun.
Qed.

Lemma trace_git_commit repo_root message (s s' : RunState) r :
  git_commit repo_root message s = (r, s') ->
  exists evs, trace s' = trace s ++ evs /\ Forall is_run evs.
Proof.
  unfold git_commit.
  destruct (run _ repo_root s) as [o1 s1] eqn:H1. apply trace_run in H1.
  destruct o1 as [rc1 ? ?|e1].
  2:{ intros [= <- <-]. eexists. split; [exact H1 | by repeat constructor]. }
  destruct (negb (rc1 =? 0)).
  { intros [= <- <-]. eexists. split; [exact H1 | by repeat constructor]. }
  destruct (run _ repo_root s1) as [o2 s2] eqn:H2. apply trace_run in H2.
  rewrite H1 in H2. rewrite <- app_assoc in H2.
  destruct o2 as [rc2 ? ?|e2].
  2:{ intros [= <- <-]. eexists. split; [exact H2 | by repeat constructor]. }
  destruct (rc2 =? 0).
  { intros [= <- <-]. eexists. split; [exact H2 | by repeat constructor]. }
  destruct (run _ repo_root s2) as [o3 s3] eqn:H3. apply trace_run in H3.
  rewrite H2 in H3. rewrite <- app_assoc in H3.
  destruct o3 as [rc3 ? ?|e3].
  2:{ intros [= <- <-]. eexists. split; [exact H3 | by repeat constructor]. }
  destruct (negb (rc3 =? 0)); intros [= <- <-];
    (eexists; split; [exact H3 | by repeat constructor]).
Qed.

Lemma trace_run_agent repo_root prompt model (s s' : RunState) ok err :
  run_agent repo_root prompt model s = (ok, err, s') ->
  exists o, trace s' = trace s ++ [EvRun (agent_command model prompt) o].
Proof.
  unfold run_agent, agent_command.
  destruct (run _ repo_root _) as [o s1] eqn:Hrun. apply trace_run in Hrun.
  rewrite trace_print in Hrun.
  destruct o as [rc ? ?|e]; [destruct (negb (rc =? 0))|];
    intros [= <- <- <-]; eexists; exact Hrun.
Qed.

Lemma str_suffix_empty n : str_suffix n "" = "".
Proof. unfold str_suffix. simpl. by destruct n. Qed.

(** One pass of the [for] loop of [run_verification]. *)
Lemma verify_command_step repo_root all_passed results (s : RunState) cmd :
  exists o r s',
    verify_command repo_root (all_passed, results, s) cmd
    = (all_passed && passed r, results ++ [r], s') /\
    trace s' = trace s ++ [EvRun (Shell cmd) o] /\
    command r = cmd /\ recorded_as o r.
Proof.
  unfold verify_command.
  destruct (run (Shell cmd) repo_root (print (ConRunning cmd) s))
    as [o s1] eqn:Hrun.
  apply trace_run in Hrun. rewrite trace_print in Hrun.
  exists o. destruct o as [rc out err|e].
  - exists {| command := cmd; passed := rc =? 0; returncode := rc;
              stdout := match out with EmptyString => "" | _ => str_suffix 2000 out end;
              stderr := match err with EmptyString => "" | _ => str_suffix 2000 err end |}.
    assert (Hout : forall t, match t with EmptyString => "" | _ => str_suffix 2000 t end
                             = str_suffix 2000 t).
    { intros t. destruct t; [by rewrite str_suffix_empty | done]. }
    simpl. destruct (rc =? 0) eqn:Hrc; eexists; (split; [|split; [|split]]).
    + by rewrite andb_true_r.
    + rewrite trace_print. exact Hrun.
    + reflexivity.
    + repeat split; apply Hout.
    + by rewrite andb_false_r.
    + rewrite trace_print. exact Hrun.
    + reflexivity.
    + repeat split; apply Hout.
  - exists {| command := cmd; passed := false; returncode := -1;
              stdout := ""; stderr := e |}.
    eexists. split; [|split; [|split]].
    + simpl. rewrite andb_false_r. reflexivity.
    + rewrite trace_print. exact Hrun.
    + reflexivity.
    + by repeat split.
Qed.

(** The [for] loop of [run_verification], from any accumulated state. *)
Lemma verify_commands_fold repo_root commands :
  forall all_passed results (s : RunState),
  exists outcomes news,
    let '(all_passed', results', s') :=
      fold_left (verify_command repo_root) commands (all_passed, results, s) in
    length outcomes = length commands /\
    trace s' = trace s ++ zip_with (fun c o => EvRun (Shell c) o) commands outcomes /\
    results' = results ++ news /\
    map command news = commands /\
    all_passed' = all_passed && forallb passed news /\
    Forall2 recorded_as outcomes news.
Proof.
  induction commands as [|cmd commands IH]; intros all_passed results s.
  - exists [], []. simpl. rewrite !app_nil_r, andb_true_r. by repeat split.
  - destruct (verify_command_step repo_root all_passed results s cmd)
      as (o & r & s1 & Hstep & Htr1 & Hcmd1 & Hrec).
    change (fold_left (verify_command repo_root) (cmd :: commands)
              (all_passed, results, s))
      with (fold_left (verify_command repo_root) commands
              (verify_command repo_root (all_passed, results, s) cmd)).
    rewrite Hstep.
    destruct (IH (all_passed && passed r) (results ++ [r]) s1)
      as (outcomes & news & IH').
    exists (o :: outcomes), (r :: news).
    destruct (fold_left _ commands _) as [[ap' res'] s'].
    destruct IH' as (Hlen & Htr & Hres & Hcmd & Hap & Hall).
    repeat split.
    + simpl. by rewrite Hlen.
    + rewrite Htr, Htr1. by rewrite <- app_assoc.
    + rewrite Hres. by rewrite <- app_assoc.
    + simpl. by rewrite Hcmd1, Hcmd.
    + simpl. by rewrite Hap, andb_assoc.
    + by constructor.
Qed.


End Traces.

(** ** One iteration of the loop *)

Section Iteration.
Context {P : Platform}.
Variables (repo_root : Path) (model : string).
Variables (max_iterations max_failures : Z) (no_commit : bool).

Lemma store_store i a b prd : store i a (store i b prd) = store i a prd.
Proof. unfold store, with_items. simpl. by rewrite list_insert_insert_eq. Qed.

Lemma trace_show_item iteration item prd (s : RunState) :
  trace (show_item max_iterations iteration item prd s) = trace s.
Proof.
  unfold show_item.
  destruct (verify_or_global item prd), (files_hint item),
    (acceptance_criteria item), (description item);
    repeat first [rewrite trace_print_all | rewrite trace_print]; reflexivity.
Qed.

Lemma start_or_resume_spec i item is_resuming prd (s : RunState) :
  exists m s1,
    start_or_resume repo_root i item is_resuming prd s
    = (item_in_progress item is_resuming,
       prd_in_progress i item is_resuming prd, s1) /\
    trace s1 = trace s
               ++ (if is_resuming then []
                   else [EvSave (prd_in_progress i item is_resuming prd)])
               ++ [EvProgress m].
Proof.
  unfold start_or_resume, item_in_progress, prd_in_progress.
  destruct is_resuming; do 2 eexists; (split; [reflexivity|]).
  - by rewrite trace_append_progress, trace_print.
  - rewrite trace_append_progress, trace_print, trace_save_prd.
    by rewrite <- app_assoc.
Qed.

Lemma on_agent_failure_spec i item prd failures agent_error (s : RunState) :
  exists err m s',
    let item' := with_status (failed err) item in
    on_agent_failure repo_root i item prd failures agent_error s
    = (item', store i item' prd, failures + 1, s') /\
    trace s' = trace s ++ [EvSave (store i item' prd); EvProgress m].
Proof.
  unfold on_agent_failure, failed. simpl.
  destruct (attempts (status item) >=? BLOCKED_THRESHOLD) eqn:Hge;
    do 3 eexists;
    unfold with_status, set_state, set_last_error; simpl; rewrite Hge;
    (split; [reflexivity | simpl; by rewrite <- app_assoc]).
Qed.

Lemma on_verification_failed_spec i item prd failures results (s : RunState) :
  exists err m s',
    let item' := with_status (failed err) item in
    on_verification_failed repo_root i item prd failures results s
    = (item', store i item' prd, failures + 1, s') /\
    trace s' = trace s ++ [EvSave (store i item' prd); EvProgress m].
Proof.
  unfold on_verification_failed, failed. simpl.
  destruct (attempts (status item) >=? BLOCKED_THRESHOLD) eqn:Hge;
    do 3 eexists;
    unfold with_status, set_state, set_last_error; simpl; rewrite Hge;
    (split; [reflexivity | simpl; by rewrite <- app_assoc]).
Qed.

Lemma on_verification_passed_spec i item prd (s : RunState) :
  exists t m gevs commit s',
    let item' := with_status (completed t) item in
    on_verification_passed repo_root no_commit i item prd s
    = (commit, item', store i item' prd, s') /\
    trace s' = trace s ++ [EvSave (store i item' prd); EvProgress m] ++ gevs /\
    Forall is_run gevs /\
    (no_commit = true -> commit = None /\ gevs = []) /\
    (no_commit = false -> is_Some commit) /\
    (commit = Some (Ok false) -> last (console s') = Some ConCommitWarning).
Proof.
  unfold on_verification_passed.
  exists (utc_now (world s)), ("Item " +:+ id item +:+ " completed successfully").
  destruct no_commit; simpl.
  - exists [], None. eexists. split; [reflexivity|].
    rewrite trace_append_progress, trace_save_prd, trace_print.
    rewrite <- app_assoc. by repeat split.
  - match goal with |- context [git_commit ?r ?m ?s0] =>
      destruct (git_commit r m s0) as [res s2] eqn:Hgit end.
    destruct (trace_git_commit _ _ _ _ _ Hgit) as (gevs & Htr & Hruns).
    rewrite trace_print, trace_append_progress, trace_save_prd in Htr.
    rewrite <- !app_assoc in Htr. simpl in Htr.
    exists gevs.
    destruct res as [[|]|e]; eexists; eexists;
      (split; [reflexivity|]); rewrite ?trace_print;
      (split; [exact Htr|]); (split; [exact Hruns|]);
      repeat split; try done.
    + simpl. intros _. by rewrite last_snoc.
Qed.

Lemma shell_runs_are_runs commands outcomes :
  Forall is_run (zip_with (fun c o => EvRun (Shell c) o) commands outcomes).
Proof.
  revert outcomes. induction commands as [|c commands IH]; intros [|o outcomes];
    simpl; try constructor; [done | apply IH].
Qed.

Lemma verify_item_spec item prd (s s' : RunState) verify_passed verify_results :
  verify_item repo_root item prd s = (verify_passed, verify_results, s') ->
  exists vevs, trace s' = trace s ++ vevs /\ Forall is_run vevs.
Proof.
  unfold verify_item.
  destruct (verify_or_global item prd) as [|c cs] eqn:Hcmds.
  - intros [= <- <- <-]. exists []. by rewrite app_nil_r.
  - unfold run_verification.
    destruct (verify_commands_fold repo_root (c :: cs) true []
                (print ConRunningVerification s)) as (outcomes & news & H).
    destruct (fold_left _ (c :: cs) _) as [[ap res] s1].
    destruct H as (_ & Htr & _). intros [= <- <- <-].
    eexists. split; [exact Htr | apply shell_runs_are_runs].
Qed.

(** Everything one iteration does with the selected item: the events it
    adds, and the item and document it leaves. *)
Lemma process_item_spec i item is_resuming prd iteration failures (s : RunState)
    o item' prd' failures' s' :
  process_item repo_root model max_iterations no_commit
    i item is_resuming prd iteration failures s
  = (o, item', prd', failures', s') ->
  let item1 := item_in_progress item is_resuming in
  let prd1 := prd_in_progress i item is_resuming prd in
  exists o1 m1 vevs st' m2 gevs,
    trace s' = trace s
               ++ (if is_resuming then [] else [EvSave prd1])
               ++ [EvProgress m1;
                   EvRun (agent_command model
                            (build_agent_prompt item1 prd1 repo_root)) o1]
               ++ vevs ++ [EvSave prd'; EvProgress m2] ++ gevs /\
    Forall is_run vevs /\ Forall is_run gevs /\
    item' = with_status (fun _ => st') item /\
    prd' = store i item' prd /\
    attempts st' = attempts (status item1) /\
    match o with
    | ItemDone commit =>
        state st' = DONE /\ is_Some (done_at st') /\ last_error st' = None /\
        failures' = failures /\
        (no_commit = true -> commit = None /\ gevs = []) /\
        (no_commit = false -> is_Some commit) /\
        (commit = Some (Ok false) -> last (console s') = Some ConCommitWarning)
    | _ =>
        state st' = (if attempts st' >=? BLOCKED_THRESHOLD then BLOCKED else TODO) /\
        done_at st' = done_at (status item) /\ is_Some (last_error st') /\
        failures' = failures + 1 /\ gevs = []
    end.
Proof.
  intros Hrun item1 prd1. unfold process_item in Hrun.
  destruct (start_or_resume_spec i item is_resuming prd
              (show_item max_iterations iteration item prd s))
    as (m1 & s1 & Hstart & Htr1).
  rewrite Hstart in Hrun. rewrite trace_show_item in Htr1.
  fold item1 prd1 in Hrun, Htr1.
  destruct (run_agent repo_root (build_agent_prompt item1 prd1 repo_root) model
              (print ConRunningAgent s1)) as [[ok err] s2] eqn:Hagent.
  destruct (trace_run_agent _ _ _ _ _ _ _ Hagent) as (o1 & Htr2).
  rewrite trace_print, Htr1 in Htr2.
  assert (Hitem : forall f, with_status f item1
                            = with_status (fun _ => f (status item1)) item).
  { intros f. subst item1. unfold item_in_progress. by destruct is_resuming. }
  assert (Hprd : forall x, store i x prd1 = store i x prd).
  { intros x. subst prd1. unfold prd_in_progress.
    destruct is_resuming; [done | apply store_store]. }
  assert (Hdone : done_at (status item1) = done_at (status item)).
  { subst item1. unfold item_in_progress. by destruct is_resuming. }
  destruct ok; simpl in Hrun.
  - destruct (verify_item repo_root item1 prd1 s2) as [[vp vr] s3] eqn:Hverify.
    destruct (verify_item_spec _ _ _ _ _ _ Hverify) as (vevs & Htr3 & Hvevs).
    rewrite Htr2 in Htr3.
    destruct vp.
    + destruct (on_verification_passed_spec i item1 prd1 s3)
        as (t & m2 & gevs & commit & s4 & Hpass & Htr4 & Hgevs & Hno & Hyes & Hwarn).
      simpl in Hpass. rewrite Hpass in Hrun. simplify_eq.
      exists o1, m1, vevs, (completed t (status item1)), m2, gevs.
      rewrite Hprd, Hitem in *. rewrite Htr4, Htr3.
      split; [by rewrite <- !app_assoc|].
      repeat split; try done;
        match goal with H : no_commit = true |- _ => by destruct (Hno H) end.
    + destruct (on_verification_failed_spec i item1 prd1 failures vr s3)
        as (e & m2 & s4 & Hfail & Htr4).
      simpl in Hfail. rewrite Hfail in Hrun. simplify_eq.
      exists o1, m1, vevs, (failed e (status item1)), m2, [].
      rewrite Hprd, Hitem in *. rewrite Htr4, Htr3.
      split; [by rewrite <- !app_assoc|].
      repeat split; try done; constructor.
  - destruct (on_agent_failure_spec i item1 prd1 failures err s2)
      as (e & m2 & s4 & Hfail & Htr4).
    simpl in Hfail. rewrite Hfail in Hrun. simplify_eq.
    exists o1, m1, [], (failed e (status item1)), m2, [].
    rewrite Hprd, Hitem in *. rewrite Htr4, Htr2.
    split; [by rewrite <- !app_assoc|].
    repeat split; try done; constructor.
Qed.

Lemma last_save_after tr prd m gevs :
  Forall is_run gevs ->
  last (saves (tr ++ [EvSave prd; EvProgress m] ++ gevs)) = Some prd.
Proof.
  intros Hruns. rewrite !saves_app, (runs_no_saves gevs Hruns). simpl.
  apply last_snoc.
Qed.

Lemma threshold_cases n :
  ((if n >=? BLOCKED_THRESHOLD then BLOCKED else TODO) = BLOCKED <-> n >= 3) /\
  ((if n >=? BLOCKED_THRESHOLD then BLOCKED else TODO) = TODO <-> n < 3).
Proof.
  unfold BLOCKED_THRESHOLD. rewrite Z.geb_leb.
  destruct (Z.leb_spec 3 n); split; split; (done || lia).
Qed.

(** C1. On any failure outcome of an iteration (the agent failed, or
    verification failed) the item's state becomes blocked if and only if its
    attempts counter is at least 3 at that moment, and todo otherwise; the
    document saved last carries that state. *)
Theorem failure_blocks_at_threshold i item is_resuming prd iteration failures
    (s : RunState) o item' prd' failures' s' :
  process_item repo_root model max_iterations no_commit
    i item is_resuming prd iteration failures s
  = (o, item', prd', failures', s') ->
  o = ItemAgentFailed \/ o = ItemVerificationFailed ->
  (state (status item') = BLOCKED <-> attempts (status item') >= 3) /\
  (state (status item') = TODO <-> attempts (status item') < 3) /\
  attempts (status item')
  = attempts (status item) + (if is_resuming then 0 else 1) /\
  prd' = store i item' prd /\
  last (saves (trace s')) = Some prd'.
Proof.
  intros Hrun Hfail.
  destruct (process_item_spec _ _ _ _ _ _ _ _ _ _ _ _ Hrun)
    as (o1 & m1 & vevs & st' & m2 & gevs
        & Htr & Hvevs & Hgevs & Hitem & Hprd & Hatt & Hout).
  assert (Hstate : state st'
                   = if attempts st' >=? BLOCKED_THRESHOLD then BLOCKED else TODO).
  { destruct Hfail; subst o; by destruct Hout. }
  subst item'. simpl. rewrite Hstate.
  destruct (threshold_cases (attempts st')) as [Hb Ht].
  split; [exact Hb|]. split; [exact Ht|]. split.
  - rewrite Hatt. unfold item_in_progress. destruct is_resuming; simpl; lia.
  - split; [exact Hprd|]. rewrite Htr, !app_assoc, <- (app_assoc _ _ gevs).
    by apply last_save_after.
Qed.


(** C9. When verification passed and commits are enabled, a [git_commit]
    that returns false changes nothing: the item is done, with [done_at] set
    and [last_error] cleared, in the document saved last; the failure counter
    is not incremented and the loop goes on to the next iteration; the
    failure is only printed as a warning. *)
Theorem commit_failure_is_only_a_warning iteration failures (s s0 : RunState)
    prd i item is_resuming item' prd' failures' s' :
  load_prd repo_root s = (Loaded prd, s0) ->
  all_done prd = false ->
  get_next_item prd = (Some (i, item), is_resuming) ->
  process_item repo_root model max_iterations no_commit
    i item is_resuming prd (iteration + 1) failures s0
  = (ItemDone (Some (Ok false)), item', prd', failures', s') ->
  no_commit = false /\
  state (status item') = DONE /\
  is_Some (done_at (status item')) /\
  last_error (status item') = None /\
  prd' = store i item' prd /\
  last (saves (trace s')) = Some prd' /\
  last (console s') = Some ConCommitWarning /\
  failures' = failures /\
  loop_body repo_root model max_iterations no_commit iteration failures s
  = (Continue (iteration + 1) failures, s').
Proof.
  intros Hload Hnot_done Hnext Hrun.
  destruct (process_item_spec _ _ _ _ _ _ _ _ _ _ _ _ Hrun)
    as (o1 & m1 & vevs & st' & m2 & gevs
        & Htr & Hvevs & Hgevs & Hitem & Hprd & Hatt & Hout).
  destruct Hout as (Hstate & Hdone & Herr & Hfail & Hno & Hyes & Hwarn).
  split.
  { destruct no_commit; [|done]. by destruct (Hno eq_refl). }
  subst item'. simpl. repeat split; try done.
  - rewrite Htr, !app_assoc, <- (app_assoc _ _ gevs). by apply last_save_after.
  - by apply Hwarn.
  - unfold loop_body. rewrite Hload, Hnot_done, Hnext, Hrun. by subst failures'.
Qed.

End Iteration.

(** ** The loop *)

Section Run.
Context {P : Platform}.
Variables (repo_root : Path) (model : string).
Variables (max_iterations max_failures : Z) (no_commit : bool).

Abbreviation loop_body' := (loop_body repo_root model max_iterations no_commit).
Abbreviation while_loop' :=
  (while_loop repo_root model max_iterations max_failures no_commit).
Abbreviation run_loop' :=
  (run_loop repo_root model max_iterations max_failures no_commit).

(** A pass through the body that does not leave the loop has counted one
    iteration. *)
Lemma loop_body_continue iteration failures (s s' : RunState) iteration' failures' :
  loop_body' iteration failures s = (Continue iteration' failures', s') ->
  iteration' = iteration + 1.
Proof.
  unfold loop_body.
  destruct (load_prd repo_root s) as [[e|e|e|prd] s0]; try done.
  destruct (all_done prd); [done|].
  destruct (get_next_item prd) as [[[i item]|] r]; [|done].
  destruct (process_item _ _ _ _ _ _ _ _ _ _ _) as [[[[o it'] p'] f'] s1].
  destruct o as [| |[[[|]|]|]]; by intros [= <- <- <-].
Qed.

(** The loop needs no more passes than [max_iterations - iteration]. *)
Lemma while_loop_total fuel :
  forall iteration failures (s : RunState),
  (Z.to_nat (max_iterations - iteration) <= fuel)%nat ->
  is_Some (while_loop' fuel iteration failures s).
Proof.
  induction fuel as [|fuel IH]; intros iteration failures s Hfuel; simpl.
  - destruct (iteration <? max_iterations) eqn:Hlt; simpl; [|done].
    apply Z.ltb_lt in Hlt. lia.
  - destruct ((iteration <? max_iterations) && (failures <? max_failures));
      [|done].
    destruct (loop_body' iteration failures s) as [[e|it' f'] s1] eqn:Hbody;
      [done|].
    apply loop_body_continue in Hbody as ->. apply IH. lia.
Qed.

(** [run_loop] always comes to an end. *)
Lemma run_loop_total (w : World) : is_Some (run_loop' w).
Proof.
  unfold run_loop.
  destruct (is_git_repo repo_root (init_state w)) as [[[|]|e] s1]; try done.
  destruct (load_prd repo_root s1) as [[e|e|e|prd] s2]; try done.
  apply while_loop_total. replace (max_iterations - 0) with max_iterations; lia.
Qed.

Lemma while_loop_stops fuel iteration failures (s : RunState) :
  (iteration <? max_iterations) && (failures <? max_failures) = false ->
  while_loop' fuel iteration failures s
  = Some (after_loop repo_root max_iterations max_failures iteration failures s).
Proof. intros Hcond. destruct fuel; simpl; by rewrite Hcond. Qed.

Lemma limit_lines_differ :
  max_failures_line max_failures <> max_iterations_line max_iterations.
Proof. unfold max_failures_line, max_iterations_line. simpl. by intros [=]. Qed.

(** When the loop stops on its condition, one of the two limits has been
    reached, and the exit code is 1 either way. *)
Lemma after_loop_limits iteration failures (s : RunState) :
  (iteration <? max_iterations) && (failures <? max_failures) = false ->
  exists s',
    after_loop repo_root max_iterations max_failures iteration failures s
    = (Returned 1, s') /\
    trace s' = trace s
               ++ [EvProgress (if failures >=? max_failures
                               then max_failures_line max_failures
                               else max_iterations_line max_iterations)] /\
    console s' = console s
                 ++ [if failures >=? max_failures
                     then ConStoppedMaxFailures max_failures
                     else ConStoppedMaxIterations max_iterations].
Proof.
  intros Hcond. unfold after_loop.
  destruct (failures >=? max_failures) eqn:Hf.
  - eexists. by repeat split.
  - assert (Hit : (iteration >=? max_iterations) = true).
    { rewrite Z.geb_leb in *. apply andb_false_iff in Hcond as [H|H].
      - apply Z.ltb_ge in H. by apply Z.leb_le.
      - apply Z.ltb_ge in H. apply Z.leb_gt in Hf. lia. }
    rewrite Hit. eexists. by repeat split.
Qed.

(** The body of the loop on a document with nothing to start or resume: the
    all-done test already holds, whatever is blocked. *)
Lemma nothing_actionable_all_done prd :
  none_in_state DOING prd -> none_in_state TODO prd -> all_done prd = true.
Proof.
  intros Hd Ht. unfold all_done. apply forallb_forall. intros it Hin.
  apply list_elem_of_In in Hin.
  specialize (Hd it Hin). specialize (Ht it Hin).
  apply orb_true_iff. rewrite !bool_decide_eq_true.
  destruct (state (status it)) eqn:Hstate; [done | done | by left | by right].
Qed.

Lemma nothing_actionable_returns_0 iteration failures (s s0 : RunState) prd :
  load_prd repo_root s = (Loaded prd, s0) ->
  none_in_state DOING prd -> none_in_state TODO prd ->
  exists s', loop_body' iteration failures s = (Stop (Returned 0), s').
Proof.
  intros Hload Hd Ht. unfold loop_body.
  rewrite Hload, (nothing_actionable_all_done prd Hd Ht). by eexists.
Qed.

(** The [return] on a missing item, with its exit code 1 for blocked items,
    is never reached: a document that is not all done has an item to work
    on. *)
Lemma not_all_done_selects prd :
  all_done prd = false -> exists i item r, get_next_item prd = (Some (i, item), r).
Proof.
  intros Hnot. pose proof (get_next_item_cases prd) as Hcases.
  destruct (get_next_item prd) as [[[i item]|] r]; [by exists i, item, r|].
  destruct Hcases as (_ & Hd & Ht).
  by rewrite (nothing_actionable_all_done prd Hd Ht) in Hnot.
Qed.

(** C5 (amended). When the loop stops because [iteration] reached
    [max_iterations] or because [failures] reached [max_failures],
    [run_loop] returns exit code 1 in both cases; the two causes differ only
    in the line printed and logged last. *)
Theorem limits_share_exit_code fuel iteration failures (s : RunState) :
  (iteration <? max_iterations) && (failures <? max_failures) = false ->
  exists s',
    while_loop' fuel iteration failures s = Some (Returned 1, s') /\
    last (progress_lines (trace s'))
    = Some (if failures >=? max_failures
            then max_failures_line max_failures
            else max_iterations_line max_iterations) /\
    last (console s')
    = Some (if failures >=? max_failures
            then ConStoppedMaxFailures max_failures
            else ConStoppedMaxIterations max_iterations) /\
    max_failures_line max_failures <> max_iterations_line max_iterations.
Proof.
  intros Hcond. rewrite (while_loop_stops _ _ _ _ Hcond).
  destruct (after_loop_limits iteration failures s Hcond)
    as (s' & Hafter & Htr & Hcon).
  exists s'. rewrite Hafter, Htr, Hcon, progress_lines_app. simpl.
  rewrite !last_snoc. repeat split. apply limit_lines_differ.
Qed.

(** C10. With [max_iterations <= 0] or [max_failures <= 0], in a git
    repository whose document loads, [run_loop] returns exit code 1 having
    only checked the repository, loaded the document once and written to the
    progress log: nothing is selected, run or saved, whatever the states of
    the items. *)
Theorem nonpositive_limits_exit_1 (w : World) (s1 s2 : RunState) prd :
  is_git_repo repo_root (init_state w) = (Ok true, s1) ->
  load_prd repo_root s1 = (Loaded prd, s2) ->
  max_iterations <= 0 \/ max_failures <= 0 ->
  exists o s',
    run_loop' w = Some (Returned 1, s') /\
    trace s'
    = [EvRun (Argv ["git"; "rev-parse"; "--git-dir"]) o; EvLoad (Loaded prd)]
      ++ (if path_exists (get_progress_path repo_root) (world s2)
          then [] else [EvTouch])
      ++ [EvProgress (harness_started_line max_iterations max_failures);
          EvProgress (if 0 >=? max_failures
                      then max_failures_line max_failures
                      else max_iterations_line max_iterations)] /\
    saves (trace s') = [].
Proof.
  intros Hgit Hload Hlimits.
  destruct (trace_is_git_repo _ _ _ _ Hgit) as (o & Htr1).
  pose proof (trace_load_prd _ _ _ _ Hload) as Htr2.
  rewrite Htr1 in Htr2. simpl in Htr2.
  assert (Hcond : (0 <? max_iterations) && (0 <? max_failures) = false).
  { apply andb_false_iff. destruct Hlimits; [left|right]; by apply Z.ltb_ge. }
  unfold run_loop. rewrite Hgit, Hload, (while_loop_stops _ _ _ _ Hcond).
  match goal with |- context [after_loop _ _ _ 0 0 ?s3] =>
    destruct (after_loop_limits 0 0 s3 Hcond) as (s' & Hafter & Htr & _)
  end.
  exists o, s'. rewrite Hafter. split; [done|].
  assert (Hshape : trace s'
    = [EvRun (Argv ["git"; "rev-parse"; "--git-dir"]) o; EvLoad (Loaded prd)]
      ++ (if path_exists (get_progress_path repo_root) (world s2)
          then [] else [EvTouch])
      ++ [EvProgress (harness_started_line max_iterations max_failures);
          EvProgress (if 0 >=? max_failures
                      then max_failures_line max_failures
                      else max_iterations_line max_iterations)]).
  { rewrite Htr, trace_append_progress.
    destruct (path_exists (get_progress_path repo_root) (world s2)); simpl;
      rewrite ?trace_emit, Htr2; reflexivity. }
  split; [exact Hshape|]. rewrite Hshape.
  by destruct (path_exists (get_progress_path repo_root) (world s2)).
Qed.

End Run.

(** ** Properties of the documents the loop saves *)

Section Preservation.
Context {P : Platform}.
Variables (repo_root : Path) (model : string).
Variables (max_iterations max_failures : Z) (no_commit : bool).

Lemma respects_app Q evs1 evs2 :
  respects Q evs1 -> respects Q evs2 -> respects Q (evs1 ++ evs2).
Proof.
  unfold respects. rewrite loads_app, saves_app, !Forall_app.
  intros H1 H2 [Hl1 Hl2]. split; [by apply H1 | by apply H2].
Qed.

Lemma respects_no_saves Q evs : saves evs = [] -> respects Q evs.
Proof. unfold respects. intros ->. constructor. Qed.

(** The documents one iteration saves. *)
Lemma process_item_saves i item is_resuming prd iteration failures (s : RunState)
    o item' prd' failures' s' evs :
  process_item repo_root model max_iterations no_commit
    i item is_resuming prd iteration failures s
  = (o, item', prd', failures', s') ->
  trace s' = trace s ++ evs ->
  loads evs = [] /\
  exists st',
    saves evs
    = (if is_resuming then [] else [store i (with_status started item) prd])
      ++ [store i (with_status (fun _ => st') item) prd] /\
    state st' <> DOING /\
    (state st' = DONE -> is_Some (done_at st')) /\
    (state st' <> DONE -> done_at st' = done_at (status item)).
Proof.
  intros Hrun Hevs.
  destruct (process_item_spec _ _ _ _ _ _ _ _ _ _ _ _ _ _ _ _ Hrun)
    as (o1 & m1 & vevs & st' & m2 & gevs
        & Htr & Hvevs & Hgevs & Hitem & Hprd & Hatt & Hout).
  rewrite Hevs in Htr. apply app_inv_head in Htr. subst evs item' prd'.
  rewrite !loads_app, !saves_app.
  rewrite (runs_no_loads _ Hvevs), (runs_no_loads _ Hgevs).
  rewrite (runs_no_saves _ Hvevs), (runs_no_saves _ Hgevs).
  split; [by destruct is_resuming|].
  exists st'. split.
  { unfold prd_in_progress. by destruct is_resuming. }
  destruct o as [| |commit].
  - destruct Hout as (Hst & Hdone & _). rewrite Hst.
    by destruct (attempts st' >=? BLOCKED_THRESHOLD).
  - destruct Hout as (Hst & Hdone & _). rewrite Hst.
    by destruct (attempts st' >=? BLOCKED_THRESHOLD).
  - destruct Hout as (Hst & Hdone & _). rewrite Hst. by repeat split.
Qed.

Section Invariant.
Variable Q : PRD -> Prop.

(** What an iteration saves has [Q], when the document it loaded has. *)
Hypothesis Hitem_keeps :
  forall prd i item is_resuming st',
    Q prd ->
    get_next_item prd = (Some (i, item), is_resuming) ->
    state st' <> DOING ->
    (state st' = DONE -> is_Some (done_at st')) ->
    (state st' <> DONE -> done_at st' = done_at (status item)) ->
    (is_resuming = false -> Q (store i (with_status started item) prd)) /\
    Q (store i (with_status (fun _ => st') item) prd).

Lemma loop_body_respects iteration failures (s s' : RunState) ctl :
  loop_body repo_root model max_iterations no_commit iteration failures s
  = (ctl, s') ->
  exists evs, trace s' = trace s ++ evs /\ respects Q evs.
Proof.
  unfold loop_body.
  destruct (load_prd repo_root s) as [r s0] eqn:Hload.
  apply trace_load_prd in Hload.
  destruct r as [e|e|e|prd];
    try (intros [= <- <-]; eexists; split; [exact Hload|];
         by apply respects_no_saves).
  destruct (all_done prd).
  { intros [= <- <-]. rewrite trace_append_progress, trace_print, Hload.
    rewrite <- app_assoc. eexists. split; [done|]. by apply respects_no_saves. }
  destruct (get_next_item prd) as [[[i item]|] is_resuming] eqn:Hnext.
  2:{ intros [= <- <-]. rewrite trace_append_progress, !trace_print, Hload.
      rewrite <- app_assoc. eexists. split; [done|]. by apply respects_no_saves. }
  destruct (process_item _ _ _ _ _ _ _ _ _ _ _) as [[[[o item'] prd'] f'] s1]
    eqn:Hrun.
  destruct (process_item_spec _ _ _ _ _ _ _ _ _ _ _ _ _ _ _ _ Hrun)
    as (o1 & m1 & vevs & st0 & m2 & gevs & Htr & _).
  match type of Htr with _ = _ ++ ?evs =>
    destruct (process_item_saves _ _ _ _ _ _ _ _ _ _ _ _ evs Hrun Htr)
      as (Hloads & st' & Hsaves & Hnd & Hd & Hnd')
  end.
  rewrite Hload, <- app_assoc in Htr.
  intros Hctl.
  assert (s' = s1) as ->.
  { destruct o as [| |[[[|]|]|]]; by simplify_eq. }
  eexists. split; [exact Htr|].
  unfold respects. rewrite loads_app, saves_app, Hloads, Hsaves. simpl.
  intros HQ. apply Forall_cons in HQ as [HQ _].
  destruct (Hitem_keeps prd i item is_resuming st' HQ Hnext Hnd Hd Hnd')
    as [Hfresh Hfinal].
  destruct is_resuming; simpl; repeat constructor; auto.
Qed.

Lemma while_loop_respects fuel :
  forall iteration failures (s s' : RunState) e,
  while_loop repo_root model max_iterations max_failures no_commit
    fuel iteration failures s = Some (e, s') ->
  exists evs, trace s' = trace s ++ evs /\ respects Q evs.
Proof.
  assert (Hafter : forall iteration failures (s s' : RunState) e,
    after_loop repo_root max_iterations max_failures iteration failures s
    = (e, s') ->
    exists evs, trace s' = trace s ++ evs /\ respects Q evs).
  { intros iteration failures s s' e. unfold after_loop.
    destruct (failures >=? max_failures); [|destruct (iteration >=? max_iterations)];
      intros [= <- <-]; rewrite ?trace_append_progress, ?trace_print.
    - eexists. split; [done|]. by apply respects_no_saves.
    - eexists. split; [done|]. by apply respects_no_saves.
    - exists []. rewrite app_nil_r. split; [done|]. by apply respects_no_saves. }
  induction fuel as [|fuel IH]; intros iteration failures s s' e; simpl.
  - destruct ((iteration <? max_iterations) && (failures <? max_failures));
      [done|].
    intros [= H]. by eapply Hafter.
  - destruct ((iteration <? max_iterations) && (failures <? max_failures)).
    2:{ intros [= H]. by eapply Hafter. }
    destruct (loop_body _ _ _ _ iteration failures s) as [[e1|it' f'] s1]
      eqn:Hbody;
      destruct (loop_body_respects _ _ _ _ _ Hbody) as (evs1 & Htr1 & Hres1).
    + intros [= <- <-]. by exists evs1.
    + intros Hloop. destruct (IH _ _ _ _ _ Hloop) as (evs2 & Htr2 & Hres2).
      exists (evs1 ++ evs2). split.
      * by rewrite Htr2, Htr1, <- app_assoc.
      * by apply respects_app.
Qed.

Lemma run_loop_respects (w : World) :
  exists e s',
    run_loop repo_root model max_iterations max_failures no_commit w
    = Some (e, s') /\
    respects Q (trace s').
Proof.
  destruct (run_loop_total repo_root model max_iterations max_failures
              no_commit w) as [[e s'] Hrun].
  exists e, s'. split; [exact Hrun|].
  unfold run_loop in Hrun.
  destruct (is_git_repo repo_root (init_state w)) as [r s1] eqn:Hgit.
  destruct (trace_is_git_repo _ _ _ _ Hgit) as (o & Htr1). simpl in Htr1.
  destruct r as [[|]|ex]; simplify_eq;
    try (rewrite ?trace_print, Htr1; by apply respects_no_saves).
  destruct (load_prd repo_root s1) as [r s2] eqn:Hload.
  apply trace_load_prd in Hload. rewrite Htr1 in Hload. simpl in Hload.
  destruct r as [ex|ex|ex|prd]; simplify_eq;
    try (rewrite ?trace_print, Hload; by apply respects_no_saves).
  apply while_loop_respects in Hrun as (evs & Htr & Hres).
  rewrite Htr, trace_append_progress.
  apply respects_app; [|exact Hres].
  apply respects_no_saves.
  destruct (path_exists (get_progress_path repo_root) (world s2)); simpl;
    rewrite ?trace_emit, Hload; reflexivity.
Qed.

End Invariant.
End Preservation.

(** ** Counting items by state *)

Section Counting.

Lemma count_by_state_filter prd st :
  count_by_state prd st
  = Z.of_nat (length (filter (has_state st) (items prd))).
Proof.
  unfold count_by_state.
  assert (Hgen : forall l (c0 : ItemState -> Z),
    fold_left
      (fun counts it s =>
         if bool_decide (s = state (status it)) then counts s + 1 else counts s)
      l c0 st
    = c0 st + Z.of_nat (length (filter (has_state st) l))).
  { induction l as [|it l IH]; intros c0; simpl.
    - lia.
    - rewrite IH, filter_cons. unfold has_state at 2.
      destruct (decide (state (status it) = st)) as [Heq|Hne].
      + rewrite bool_decide_eq_true_2 by done. simpl length. lia.
      + rewrite bool_decide_eq_false_2 by (intros ->; done). lia. }
  by rewrite Hgen.
Qed.

Lemma filter_length_insert (Q : WorkItem -> Prop) `{!forall x, Decision (Q x)}
    (l : list WorkItem) i x y :
  l !! i = Some x ->
  (length (filter Q (<[i:=y]> l)) + (if decide (Q x) then 1 else 0)
   = length (filter Q l) + (if decide (Q y) then 1 else 0))%nat.
Proof.
  revert i. induction l as [|z l IH]; intros [|i] Hlk; simplify_eq/=.
  - rewrite !filter_cons. destruct (decide (Q x)), (decide (Q y)); simpl; lia.
  - rewrite !filter_cons. specialize (IH i Hlk).
    destruct (decide (Q z)); simpl; lia.
Qed.

Lemma count_by_state_store prd st i x y :
  items prd !! i = Some x ->
  count_by_state (store i y prd) st
  + (if decide (has_state st x) then 1 else 0)
  = count_by_state prd st + (if decide (has_state st y) then 1 else 0).
Proof.
  intros Hlk. rewrite !count_by_state_filter. simpl.
  pose proof (filter_length_insert (has_state st) (items prd) i x y Hlk).
  destruct (decide (has_state st x)), (decide (has_state st y)); lia.
Qed.

Lemma none_in_state_count prd st :
  none_in_state st prd -> count_by_state prd st = 0.
Proof.
  intros Hnone. rewrite count_by_state_filter.
  assert (filter (has_state st) (items prd) = []) as ->; [|done].
  unfold none_in_state in Hnone.
  induction (items prd) as [|it l IH]; [done|].
  rewrite filter_cons_False; [apply IH|].
  - intros x Hx. apply Hnone. by right.
  - apply Hnone. by left.
Qed.

(** What an iteration saves keeps [done_at] in step with the state. *)
Lemma iteration_keeps_done_at prd i item is_resuming st' :
  done_at_consistent prd ->
  get_next_item prd = (Some (i, item), is_resuming) ->
  state st' <> DOING ->
  (state st' = DONE -> is_Some (done_at st')) ->
  (state st' <> DONE -> done_at st' = done_at (status item)) ->
  (is_resuming = false ->
   done_at_consistent (store i (with_status started item) prd)) /\
  done_at_consistent (store i (with_status (fun _ => st') item) prd).
Proof.
  intros HQ Hnext Hnd Hd Hnd'.
  pose proof (get_next_item_cases prd) as Hcases. rewrite Hnext in Hcases.
  assert (Hitem : items prd !! i = Some item /\ state (status item) <> DONE).
  { destruct is_resuming.
    - destruct Hcases as (Hlk & Hst & _). split; [done|]. by rewrite Hst.
    - destruct Hcases as (_ & Hlk & Hst & _). split; [done|]. by rewrite Hst. }
  destruct Hitem as [Hlk Hnot_done].
  assert (Hnone : ~ is_Some (done_at (status item))).
  { intros Hsome. apply Hnot_done.
    by apply (Forall_lookup_1 _ _ _ _ HQ Hlk). }
  unfold done_at_consistent, store. simpl. split.
  - intros _. apply Forall_insert; [exact HQ|].
    unfold done_at_iff_done. simpl. split; [done | by intros [=]].
  - apply Forall_insert; [exact HQ|].
    unfold done_at_iff_done. simpl. split; [|exact Hd].
    intros Hsome. destruct (decide (state st' = DONE)) as [|Hne]; [done|].
    rewrite (Hnd' Hne) in Hsome. done.
Qed.

(** What an iteration saves has at most one item in state doing. *)
Lemma iteration_keeps_one_doing prd i item is_resuming st' :
  at_most_one_doing prd ->
  get_next_item prd = (Some (i, item), is_resuming) ->
  state st' <> DOING ->
  (state st' = DONE -> is_Some (done_at st')) ->
  (state st' <> DONE -> done_at st' = done_at (status item)) ->
  (is_resuming = false ->
   at_most_one_doing (store i (with_status started item) prd)) /\
  at_most_one_doing (store i (with_status (fun _ => st') item) prd).
Proof.
  intros HQ Hnext Hnd _ _. unfold at_most_one_doing in *.
  pose proof (get_next_item_cases prd) as Hcases. rewrite Hnext in Hcases.
  destruct is_resuming.
  - destruct Hcases as (Hlk & Hst & _). split; [done|].
    pose proof (count_by_state_store prd DOING i item
                  (with_status (fun _ => st') item) Hlk) as Hcount.
    rewrite decide_True in Hcount by exact Hst.
    rewrite decide_False in Hcount by exact Hnd. lia.
  - destruct Hcases as (Hnone & Hlk & Hst & _).
    apply none_in_state_count in Hnone.
    assert (Hnot : ~ has_state DOING item).
    { unfold has_state. by rewrite Hst. }
    split.
    + intros _.
      pose proof (count_by_state_store prd DOING i item
                    (with_status started item) Hlk) as Hcount.
      rewrite decide_False in Hcount by exact Hnot.
      rewrite decide_True in Hcount by reflexivity. lia.
    + pose proof (count_by_state_store prd DOING i item
                    (with_status (fun _ => st') item) Hlk) as Hcount.
      rewrite decide_False in Hcount by exact Hnot.
      rewrite decide_False in Hcount by exact Hnd. lia.
Qed.

End Counting.

(** ** The invariants of the saved documents *)

Section Invariants.
Context {P : Platform}.
Variables (repo_root : Path) (model : string).
Variables (max_iterations max_failures : Z) (no_commit : bool).


(** C7. Provided each document the loop loads has at most one item in state
    doing, so has every document the loop saves. *)
Theorem at_most_one_doing_preserved (w : World) :
  exists e s',
    run_loop repo_root model max_iterations max_failures no_commit w
    = Some (e, s') /\
    (Forall at_most_one_doing (loads (trace s')) ->
     Forall at_most_one_doing (saves (trace s'))).
Proof.
  exact (run_loop_respects repo_root model max_iterations max_failures no_commit
           at_most_one_doing iteration_keeps_one_doing w).
Qed.

End Invariants.

(** ** Runs in the simulated world *)

Section Runs.
Import Sim.

(** The selector on [mixed_backlog]: the third item is resumed. *)
Lemma get_next_item_policy_witness :
  exists i item,
    get_next_item mixed_backlog = (Some (i, item), true)
    /\ first_in_state DOING mixed_backlog i item.
Proof.
  apply (proj1 (get_next_item_policy mixed_backlog)).
  exists (simple_item "c" None (status_of DOING 1 None)).
  split; [|reflexivity]. right. right. left.
Defined.

(** The third failed attempt blocks the item. *)
Lemma failure_blocks_at_threshold_witness :
  (state (status (item_of third_failure)) = BLOCKED
   <-> attempts (status (item_of third_failure)) >= 3)
  /\ state (status (item_of third_failure)) = BLOCKED.
Proof.
  split; [|vm_compute; reflexivity].
  refine (proj1 (@failure_blocks_at_threshold sim_platform "." "m" 50 false
                   0%nat item_twice_tried false (backlog [item_twice_tried]) 1 0
                   (@init_state sim_platform
                      (world_with (backlog [item_twice_tried]) 1 0))
                   (outcome_of third_failure) (item_of third_failure)
                   (prd_of third_failure) (failures_of third_failure)
                   (state_of third_failure) _ _)).
  - vm_compute. reflexivity.
  - left. vm_compute. reflexivity.
Defined.


(** C2. A backlog whose only item is blocked has nothing in state doing or
    todo; the first iteration of the loop takes the all-done exit and
    [run_loop] returns 0, not the 1 of the [return] written for blocked
    items. *)
Theorem blocked_backlog_exits_0 :
  none_in_state DOING blocked_backlog /\
  none_in_state TODO blocked_backlog /\
  some_in_state BLOCKED blocked_backlog /\
  exit_of (sim_run_loop 50 10 false (world_with blocked_backlog 0 0))
  = Some (Returned 0) /\
  last_progress (sim_run_loop 50 10 false (world_with blocked_backlog 0 0))
  = Some "=== All items complete ===".
Proof.
  assert (Hnone : forall st, st <> BLOCKED -> none_in_state st blocked_backlog).
  { intros st Hst it Hin. apply list_elem_of_singleton in Hin as ->.
    simpl. by intros <-. }
  split; [by apply Hnone|]. split; [by apply Hnone|]. split.
  - eexists. split; [left | reflexivity].
  - split; vm_compute; reflexivity.
Qed.

(** C5, as stated, fails: a run that stops on [max_iterations] with an item
    still to do, and a run that stops on [max_failures], return the same
    exit code. *)
Lemma limit_exit_codes_coincide :
  let by_iterations := sim_run_loop 1 10 false (world_with two_todo_backlog 0 0) in
  let by_failures := sim_run_loop 50 1 false (world_with (backlog [item_fresh]) 1 0) in
  last_progress by_iterations = Some (max_iterations_line 1) /\
  (exists prd, final_disk by_iterations = Some prd /\ some_in_state TODO prd) /\
  last_progress by_failures = Some (max_failures_line 1) /\
  ~ (exit_of by_iterations <> exit_of by_failures).
Proof.
  split; [vm_compute; reflexivity|]. split.
  - eexists. split; [vm_compute; reflexivity|].
    eexists. split; [right; left | reflexivity].
  - split; [vm_compute; reflexivity|].
    intros Hne. apply Hne. vm_compute. reflexivity.
Qed.

(** The loop left on the iteration limit, in the simulated world. *)
Lemma limits_share_exit_code_witness :
  exists s',
    @while_loop sim_platform "." "m" 1 10 false 0 1 0
      (@init_state sim_platform (world_with two_todo_backlog 0 0))
    = Some (Returned 1, s')
    /\ last (progress_lines (trace s')) = Some (max_iterations_line 1).
Proof.
  destruct (@limits_share_exit_code sim_platform "." "m" 1 10 false 0%nat 1 0
              (@init_state sim_platform (world_with two_todo_backlog 0 0)))
    as (s' & Hloop & Hline & _).
  - reflexivity.
  - exists s'. split; [exact Hloop | exact Hline].
Defined.



(** A run that resumes an interrupted item: no document saved has two items
    in state doing. *)
Lemma at_most_one_doing_preserved_witness :
  exists e s',
    sim_run_loop 50 10 false (world_with interrupted_backlog 0 0) = Some (e, s')
    /\ Forall at_most_one_doing (saves (trace s')).
Proof.
  destruct (@at_most_one_doing_preserved sim_platform "." "m" 50 10 false
              (world_with interrupted_backlog 0 0)) as (e & s' & Hrun & Hkeeps).
  exists e, s'. split; [exact Hrun|]. apply Hkeeps.
  vm_compute in Hrun. injection Hrun as <- <-.
  vm_compute.
  repeat (constructor; [intros Hgt; discriminate Hgt|]).
  constructor.
Defined.

(** An iteration whose commit fails: the item is done and no failure is
    counted. *)
Lemma commit_failure_is_only_a_warning_witness :
  state (status (item_of commit_fails_iteration)) = DONE
  /\ failures_of commit_fails_iteration = 0
  /\ @loop_body sim_platform "." "m" 50 false 0 0
       (@init_state sim_platform commit_fails_world)
     = (Continue (0 + 1) 0, state_of commit_fails_iteration).
Proof.
  destruct (@commit_failure_is_only_a_warning sim_platform "." "m" 50 false
              0 0 (@init_state sim_platform commit_fails_world)
              commit_fails_loaded.2 (backlog [item_fresh]) 0%nat item_fresh false
              (item_of commit_fails_iteration) (prd_of commit_fails_iteration)
              (failures_of commit_fails_iteration)
              (state_of commit_fails_iteration))
    as (_ & Hstate & _ & _ & _ & _ & _ & Hfailures & Hbody).
  - vm_compute. reflexivity.
  - vm_compute. reflexivity.
  - vm_compute. reflexivity.
  - vm_compute. reflexivity.
  - split; [exact Hstate|]. split; [exact Hfailures | exact Hbody].
Defined.

(** With [max_iterations = 0], a backlog that is all done still ends in exit
    code 1. *)
Lemma nonpositive_limits_exit_1_witness :
  exists s',
    sim_run_loop 0 10 false all_done_world = Some (Returned 1, s')
    /\ saves (trace s') = [].
Proof.
  destruct (@nonpositive_limits_exit_1 sim_platform "." "m" 0 10 false
              all_done_world all_done_checked.2 all_done_loaded.2
              all_done_backlog)
    as (o & s' & Hrun & _ & Hsaves).
  - vm_compute. reflexivity.
  - vm_compute. reflexivity.
  - left. lia.
  - exists s'. split; [exact Hrun | exact Hsaves].
Defined.

End Runs.

(** ** More on models.py *)

Section ModelsMore.

Lemma filter_state_lengths (l : list WorkItem) :
  (length (filter (has_state TODO) l) + length (filter (has_state DOING) l)
   + length (filter (has_state DONE) l) + length (filter (has_state BLOCKED) l)
   = length l)%nat.
Proof.
  induction l as [|it l IH]; [done|].
  rewrite !filter_cons.
  destruct (decide (has_state TODO it)) as [H1|H1],
    (decide (has_state DOING it)) as [H2|H2],
    (decide (has_state DONE it)) as [H3|H3],
    (decide (has_state BLOCKED it)) as [H4|H4];
    unfold has_state in H1, H2, H3, H4; simpl; try congruence; try lia.
  exfalso. destruct (state (status it)); congruence.
Qed.


(** X2. [all_done] holds exactly when the selector has nothing to return:
    the loop cannot see a document that is not all done and yet offers no
    item. An empty backlog is all done. *)
Theorem all_done_iff_nothing_selected prd :
  (all_done prd = true <-> get_next_item prd = (None, false)) /\
  all_done (with_items [] prd) = true.
Proof.
  split; [|reflexivity]. split.
  - intros Hall. unfold all_done in Hall.
    assert (Hnone : forall st, st = DOING \/ st = TODO -> none_in_state st prd).
    { intros st Hst it Hin Heq.
      apply list_elem_of_In in Hin.
      pose proof (proj1 (forallb_forall _ _) Hall it Hin) as Hit.
      apply orb_true_iff in Hit. rewrite !bool_decide_eq_true in Hit.
      destruct Hst; destruct Hit; congruence. }
    unfold get_next_item.
    rewrite (none_in_state_find DOING prd), (none_in_state_find TODO prd);
      [done | apply Hnone; by right | apply Hnone; by left].
  - intros Hnext. pose proof (get_next_item_cases prd) as Hcases.
    rewrite Hnext in Hcases. destruct Hcases as (_ & Hd & Ht).
    by apply nothing_actionable_all_done.
Qed.

(** X3. [get_next_todo] returns the first item in state todo, whatever is in
    state doing, and no item exactly when none is in state todo; the selector
    returns the same item whenever it does not resume. *)
Theorem get_next_todo_policy prd :
  (forall i item, get_next_todo prd = Some (i, item) ->
                  first_in_state TODO prd i item) /\
  (get_next_todo prd = None <-> none_in_state TODO prd) /\
  (forall r, get_next_item prd = (r, false) -> r = get_next_todo prd).
Proof.
  unfold get_next_todo. split; [|split].
  - intros i item. apply find_first_in_state.
  - split; [apply find_none_in_state | apply none_in_state_find].
  - intros r. unfold get_next_item.
    destruct (list_find (has_state DOING) (items prd)); [done|].
    destruct (list_find (has_state TODO) (items prd)); by intros [= <-].
Qed.

(** X4. [get_item_by_id] returns the first item, in document order, that
    carries the id, also when several items do; it returns no item exactly
    when no item carries the id. *)
Theorem get_item_by_id_first_match prd item_id :
  (forall i item,
     get_item_by_id prd item_id = Some (i, item) ->
     items prd !! i = Some item /\ id item = item_id /\
     forall j other, items prd !! j = Some other -> (j < i)%nat ->
                     id other <> item_id) /\
  (get_item_by_id prd item_id = None <->
   forall item, item ∈ items prd -> id item <> item_id).
Proof.
  unfold get_item_by_id. split.
  - intros i item Hfind. by apply list_find_Some in Hfind.
  - rewrite list_find_None, Forall_forall. done.
Qed.

(** X5. When the ids of a document are unique, looking an item up by its id
    gives back that item and its position. *)
Theorem get_item_by_id_unique prd i item :
  NoDup (map id (items prd)) ->
  items prd !! i = Some item ->
  get_item_by_id prd (id item) = Some (i, item).
Proof.
  intros Hnodup Hlk. unfold get_item_by_id. apply list_find_Some.
  split; [exact Hlk|]. split; [done|].
  intros j other Hj Hlt Heq.
  assert (Hi : map id (items prd) !! i = Some (id item)).
  { by rewrite list_lookup_fmap, Hlk. }
  assert (Hj' : map id (items prd) !! j = Some (id item)).
  { by rewrite list_lookup_fmap, Hj, <- Heq. }
  pose proof (NoDup_lookup _ _ _ _ Hnodup Hi Hj'). lia.
Qed.

End ModelsMore.

(** ** Strings *)

Section Strings.

Lemma app_cons c (s t : string) : String c s +:+ t = String c (s +:+ t).
Proof. reflexivity. Qed.

Lemma app_empty_l (s : string) : "" +:+ s = s.
Proof. reflexivity. Qed.

Lemma app_empty_r (s : string) : s +:+ "" = s.
Proof. induction s as [|c s IH]; [done|]. by rewrite app_cons, IH. Qed.

Lemma app_assoc_s (a b c : string) : (a +:+ b) +:+ c = a +:+ (b +:+ c).
Proof. induction a as [|x a IH]; [done|]. by rewrite !app_cons, IH. Qed.

Lemma length_app_s (a b : string) :
  String.length (a +:+ b) = (String.length a + String.length b)%nat.
Proof. induction a as [|x a IH]; [done|]. rewrite app_cons. simpl. by rewrite IH. Qed.

Lemma substring_whole m (s : string) :
  (String.length s <= m)%nat -> String.substring 0 m s = s.
Proof.
  revert m. induction s as [|c s IH]; intros [|m] Hlen; simpl in *;
    try done; try lia.
  rewrite IH; [done | lia].
Qed.

Lemma str_prefix_is_head n (s : string) : is_head n s (str_prefix n s).
Proof.
  unfold is_head, str_prefix. revert n.
  induction s as [|c s IH]; intros [|n]; simpl.
  - split; [done | by exists ""].
  - split; [done | by exists ""].
  - split; [done | by exists (String c s)].
  - destruct (IH n) as [Hlen [post Hpost]]. split; [by rewrite Hlen|].
    exists post. by rewrite app_cons, <- Hpost.
Qed.

Lemma substring_is_tail k m (s : string) :
  (k <= String.length s)%nat -> (String.length s <= k + m)%nat ->
  String.length (String.substring k m s) = (String.length s - k)%nat /\
  exists pre, s = pre +:+ String.substring k m s.
Proof.
  revert s. induction k as [|k IH]; intros s Hk Hm.
  - rewrite substring_whole by lia. split; [lia | by exists ""].
  - destruct s as [|c s]; simpl in *; [lia|].
    destruct (IH s) as [Hlen [pre Hpre]]; [lia | lia |].
    split; [done|]. exists (String c pre). by rewrite app_cons, <- Hpre.
Qed.

Lemma str_suffix_is_tail n (s : string) : is_tail n s (str_suffix n s).
Proof.
  unfold is_tail, str_suffix.
  destruct (substring_is_tail (String.length s - n) n s) as [Hlen Hpre];
    [lia | lia |].
  split; [lia | exact Hpre].
Qed.

End Strings.

(** ** More on the sub-process wrappers *)

Section Wrappers.
Context {P : Platform}.





End Wrappers.

(** ** More on one iteration *)

Section IterationMore.
Context {P : Platform}.
Variables (repo_root : Path) (model : string).
Variables (max_iterations max_failures : Z) (no_commit : bool).

Lemma str_prefix_length_le n (s : string) :
  (String.length (str_prefix n s) <= n)%nat.
Proof. destruct (str_prefix_is_head n s) as [-> _]. lia. Qed.

Lemma on_agent_failure_last_error i item prd failures agent_error (s : RunState) :
  last_error
    (status (on_agent_failure repo_root i item prd failures agent_error s).1.1.1)
  = Some ("Agent error: " +:+ str_prefix 500 agent_error).
Proof.
  unfold on_agent_failure. simpl.
  by destruct (attempts (status item) >=? BLOCKED_THRESHOLD).
Qed.

Lemma on_verification_failed_last_error i item prd failures results (s : RunState) :
  exists summary,
    last_error
      (status (on_verification_failed repo_root i item prd failures results s).1.1.1)
    = Some ("Verification failed: " +:+ str_prefix 500 summary).
Proof.
  unfold on_verification_failed. simpl. eexists.
  by destruct (attempts (status item) >=? BLOCKED_THRESHOLD).
Qed.

(** X10. The error text an iteration leaves on the item is bounded: after an
    agent failure it is [Agent error: ] followed by at most 500 characters,
    after a verification failure [Verification failed: ] followed by at most
    500 characters, and after a passed verification there is none. *)
Theorem last_error_is_bounded i item is_resuming prd iteration failures
    (s : RunState) :
  let '(o, item', _, _, _) :=
    process_item repo_root model max_iterations no_commit
      i item is_resuming prd iteration failures s in
  match o with
  | ItemAgentFailed =>
      exists e, last_error (status item') = Some ("Agent error: " +:+ e)
                /\ (String.length e <= 500)%nat
  | ItemVerificationFailed =>
      exists e, last_error (status item') = Some ("Verification failed: " +:+ e)
                /\ (String.length e <= 500)%nat
  | ItemDone _ => last_error (status item') = None
  end.
Proof.
  unfold process_item.
  destruct (start_or_resume_spec repo_root i item is_resuming prd
              (show_item max_iterations iteration item prd s))
    as (m1 & s1 & -> & _).
  destruct (run_agent _ _ _ _) as [[ok err] s2].
  destruct ok; simpl.
  - destruct (verify_item _ _ _ _) as [[vp vr] s3].
    destruct vp.
    + destruct (on_verification_passed_spec repo_root no_commit i
                  (item_in_progress item is_resuming)
                  (prd_in_progress i item is_resuming prd) s3)
        as (t & m2 & gevs & commit & s4 & Hpass & _).
      simpl in Hpass. by rewrite Hpass.
    + destruct (on_verification_failed_last_error i
                  (item_in_progress item is_resuming)
                  (prd_in_progress i item is_resuming prd) failures vr s3)
        as (summary & Herr).
      destruct (on_verification_failed _ _ _ _ _ _ _) as [[[it p] f] st].
      simpl in Herr. eexists. split; [exact Herr | apply str_prefix_length_le].
  - pose proof (on_agent_failure_last_error i
                  (item_in_progress item is_resuming)
                  (prd_in_progress i item is_resuming prd) failures err s2)
      as Herr.
    destruct (on_agent_failure _ _ _ _ _ _ _) as [[[it p] f] st].
    simpl in Herr. eexists. split; [exact Herr | apply str_prefix_length_le].
Qed.

(** X11. An iteration changes nothing but the status of the selected item:
    its descriptive fields, every other item, the order and number of the
    items and the document's version, project and global configuration are
    as loaded; its attempts counter goes up by at most one, and the failure
    counter goes up by one on a failure and is left alone, not reset, on a
    success. *)
Theorem iteration_touches_only_selected_item i item is_resuming prd iteration
    failures (s : RunState) :
  let '(o, item', prd', failures', _) :=
    process_item repo_root model max_iterations no_commit
      i item is_resuming prd iteration failures s in
  same_description item' item /\
  version prd' = version prd /\ project prd' = project prd /\
  global_config prd' = global_config prd /\
  length (items prd') = length (items prd) /\
  (forall j, j <> i -> items prd' !! j = items prd !! j) /\
  (is_Some (items prd !! i) -> items prd' !! i = Some item') /\
  attempts (status item) <= attempts (status item')
  <= attempts (status item) + 1 /\
  failures' = failures + failure_of o.
Proof.
  destruct (process_item _ _ _ _ _ _ _ _ _ _ _) as [[[[o item'] prd'] f'] s']
    eqn:Hrun.
  destruct (process_item_spec _ _ _ _ _ _ _ _ _ _ _ _ _ _ _ _ Hrun)
    as (o1 & m1 & vevs & st' & m2 & gevs
        & _ & _ & _ & Hitem & Hprd & Hatt & Hout).
  subst item' prd'. unfold store. simpl.
  split; [by repeat split|]. do 3 (split; [done|]).
  split; [apply length_insert|].
  split; [intros j Hj; by apply list_lookup_insert_ne|].
  split.
  { intros [x Hx]. apply list_lookup_insert_eq. by eapply lookup_lt_Some. }
  split.
  { rewrite Hatt. unfold item_in_progress. destruct is_resuming; simpl; lia. }
  destruct o; simpl; destruct Hout as (_ & _ & _ & -> & _); lia.
Qed.

End IterationMore.

(** ** More on the loop *)

Section RunMore.
Context {P : Platform}.
Variables (repo_root : Path) (model : string).
Variables (max_iterations max_failures : Z) (no_commit : bool).

Lemma agent_runs_app tr1 tr2 :
  agent_runs (tr1 ++ tr2) = agent_runs tr1 ++ agent_runs tr2.
Proof. apply omap_app. Qed.

Lemma shell_runs_no_agent evs : Forall is_shell_run evs -> agent_runs evs = [].
Proof.
  induction 1 as [|e evs He _ IH]; [done|].
  destruct e as [[args|line] r| | | |]; simpl in *; done.
Qed.

Lemma git_runs_no_agent evs : Forall is_git_run evs -> agent_runs evs = [].
Proof.
  induction 1 as [|e evs He _ IH]; [done|].
  change (e :: evs) with ([e] ++ evs). rewrite agent_runs_app, IH, app_nil_r.
  destruct e as [[[|prog args]|line] r| | | |]; simpl in He; try done.
  by subst prog.
Qed.

Lemma verify_item_shell item prd (s s' : RunState) verify_passed verify_results :
  verify_item repo_root item prd s = (verify_passed, verify_results, s') ->
  exists vevs, trace s' = trace s ++ vevs /\ Forall is_shell_run vevs.
Proof.
  unfold verify_item.
  destruct (verify_or_global item prd) as [|c cs] eqn:Hcmds.
  - intros [= <- <- <-]. exists []. by rewrite app_nil_r.
  - unfold run_verification.
    destruct (verify_commands_fold repo_root (c :: cs) true []
                (print ConRunningVerification s)) as (outcomes & news & H).
    destruct (fold_left _ (c :: cs) _) as [[ap res] s1].
    destruct H as (_ & Htr & _). intros [= <- <- <-].
    eexists. split; [exact Htr|].
    clear. generalize (c :: cs). intros l. revert outcomes.
    induction l as [|x l IH]; intros [|o outcomes]; simpl;
      try constructor; [done | apply IH].
Qed.

Lemma git_commit_runs message (s s' : RunState) r :
  git_commit repo_root message s = (r, s') ->
  exists evs,
    trace s' = trace s ++ evs /\ Forall is_git_run evs /\
    forall e, r = Exn e -> exists before c, evs = before ++ [EvRun c (Threw e)].
Proof.
  unfold git_commit.
  destruct (run _ repo_root s) as [o1 s1] eqn:H1. apply trace_run in H1.
  destruct o1 as [rc1 ? ?|e1].
  2:{ intros [= <- <-]. eexists. split; [exact H1|].
      split; [by repeat constructor|]. intros e [= <-]. by eexists [], _. }
  destruct (negb (rc1 =? 0)).
  { intros [= <- <-]. eexists. split; [exact H1|].
    split; [by repeat constructor | done]. }
  destruct (run _ repo_root s1) as [o2 s2] eqn:H2. apply trace_run in H2.
  rewrite H1, <- app_assoc in H2. simpl in H2.
  destruct o2 as [rc2 ? ?|e2].
  2:{ intros [= <- <-]. eexists. split; [exact H2|].
      split; [by repeat constructor|]. intros e [= <-]. by eexists [_], _. }
  destruct (rc2 =? 0).
  { intros [= <- <-]. eexists. split; [exact H2|].
    split; [by repeat constructor | done]. }
  destruct (run _ repo_root s2) as [o3 s3] eqn:H3. apply trace_run in H3.
  rewrite H2, <- app_assoc in H3. simpl in H3.
  destruct o3 as [rc3 ? ?|e3].
  2:{ intros [= <- <-]. eexists. split; [exact H3|].
      split; [by repeat constructor|]. intros e [= <-]. by eexists [_; _], _. }
  destruct (negb (rc3 =? 0)); intros [= <- <-];
    (eexists; split; [exact H3|]; split; [by repeat constructor | done]).
Qed.

Lemma on_verification_passed_runs i item prd (s : RunState) commit item' prd' s' :
  on_verification_passed repo_root no_commit i item prd s
  = (commit, item', prd', s') ->
  exists m gevs,
    trace s' = trace s ++ [EvSave prd'; EvProgress m] ++ gevs /\
    Forall is_git_run gevs /\
    forall e, commit = Some (Exn e) ->
              exists before c, gevs = before ++ [EvRun c (Threw e)].
Proof.
  unfold on_verification_passed. destruct no_commit; simpl.
  - intros [= <- <- <- <-]. exists ("Item " +:+ id item +:+ " completed successfully"), [].
    split; [|split; [constructor | done]].
    simpl. by rewrite <- app_assoc.
  - match goal with |- context [git_commit ?r ?m ?s0] =>
      destruct (git_commit r m s0) as [res s2] eqn:Hgit end.
    destruct (git_commit_runs _ _ _ _ Hgit) as (gevs & Htr & Hgit_runs & Hexn).
    simpl in Htr. rewrite <- !app_assoc in Htr. simpl in Htr.
    destruct res as [[|]|e]; intros [= <- <- <- <-];
      exists ("Item " +:+ id item +:+ " completed successfully"), gevs;
      (split; [exact Htr|]); (split; [exact Hgit_runs|]);
      intros e' [= He']; try discriminate He'.
    apply Hexn. by rewrite He'.
Qed.

(** The runs of one iteration: the agent is launched once; an exception
    comes from a git launch, which is then the last event. *)
Lemma process_item_runs i item is_resuming prd iteration failures (s : RunState)
    o item' prd' failures' s' :
  process_item repo_root model max_iterations no_commit
    i item is_resuming prd iteration failures s
  = (o, item', prd', failures', s') ->
  exists evs,
    trace s' = trace s ++ evs /\
    length (agent_runs evs) = 1%nat /\
    forall e, o = ItemDone (Some (Exn e)) ->
              exists ev, last evs = Some ev /\ raise_event e ev.
Proof.
  intros Hrun. unfold process_item in Hrun.
  destruct (start_or_resume_spec repo_root i item is_resuming prd
              (show_item max_iterations iteration item prd s))
    as (m1 & s1 & Hstart & Htr1).
  rewrite Hstart in Hrun. rewrite trace_show_item in Htr1.
  destruct (run_agent _ _ _ _) as [[ok err] s2] eqn:Hagent.
  destruct (trace_run_agent _ _ _ _ _ _ _ Hagent) as (o1 & Htr2).
  rewrite trace_print, Htr1 in Htr2.
  destruct ok; simpl in Hrun.
  - destruct (verify_item _ _ _ _) as [[vp vr] s3] eqn:Hverify.
    destruct (verify_item_shell _ _ _ _ _ _ Hverify) as (vevs & Htr3 & Hvevs).
    rewrite Htr2 in Htr3.
    destruct vp.
    + destruct (on_verification_passed _ _ _ _ _ _) as [[[commit it] p] s4]
        eqn:Hpass.
      destruct (on_verification_passed_runs _ _ _ _ _ _ _ _ Hpass)
        as (m2 & gevs & Htr4 & Hgevs & Hexn).
      simplify_eq. rewrite Htr3 in Htr4. rewrite <- !app_assoc in Htr4.
      eexists. split; [exact Htr4|]. split.
      * rewrite !agent_runs_app, (git_runs_no_agent _ Hgevs),
          (shell_runs_no_agent _ Hvevs).
        by destruct is_resuming.
      * intros e [= ->]. destruct (Hexn e eq_refl) as (before & c & ->).
        exists (EvRun c (Threw e)). rewrite !app_assoc, last_snoc.
        split; [done|].
        apply Forall_app in Hgevs as [_ Hlast].
        rewrite Forall_singleton in Hlast.
        destruct c as [[|prog args]|line]; simpl in Hlast; done.
    + destruct (on_verification_failed_spec repo_root i
                  (item_in_progress item is_resuming)
                  (prd_in_progress i item is_resuming prd) failures vr s3)
        as (e & m2 & s4 & Hfail & Htr4).
      simpl in Hfail. rewrite Hfail in Hrun. simplify_eq.
      rewrite Htr3 in Htr4. rewrite <- !app_assoc in Htr4.
      eexists. split; [exact Htr4|]. split; [|done].
      rewrite !agent_runs_app, (shell_runs_no_agent _ Hvevs).
      by destruct is_resuming.
  - destruct (on_agent_failure_spec repo_root i
                (item_in_progress item is_resuming)
                (prd_in_progress i item is_resuming prd) failures err s2)
      as (e & m2 & s4 & Hfail & Htr4).
    simpl in Hfail. rewrite Hfail in Hrun. simplify_eq.
    rewrite Htr2 in Htr4. rewrite <- !app_assoc in Htr4.
    eexists. split; [exact Htr4|]. split; [|done].
    rewrite !agent_runs_app. by destruct is_resuming.
Qed.

Lemma loop_body_runs iteration failures (s s' : RunState) ctl :
  loop_body repo_root model max_iterations no_commit iteration failures s
  = (ctl, s') ->
  exists evs,
    trace s' = trace s ++ evs /\
    (length (agent_runs evs) <= 1)%nat /\
    (forall e, ctl = Stop (Raised e) ->
               exists ev, last evs = Some ev /\ raise_event e ev) /\
    (forall c, ctl = Stop (Returned c) ->
               c = 0 /\ exists prd, last (loads evs) = Some prd
                                    /\ all_done prd = true).
Proof.
  unfold loop_body.
  destruct (load_prd repo_root s) as [r s0] eqn:Hload.
  apply trace_load_prd in Hload.
  destruct r as [e|e|e|prd];
    try (intros [= <- <-]; eexists; split; [exact Hload|];
         split; [simpl; lia|]; split; [|done];
         intros x [= <-]; eexists; by split).
  destruct (all_done prd) eqn:Hall.
  { intros [= <- <-]. rewrite trace_append_progress, trace_print, Hload.
    rewrite <- app_assoc. eexists. split; [done|].
    split; [simpl; lia|]. split; [done|].
    intros c [= <-]. split; [done|]. by exists prd. }
  destruct (not_all_done_selects prd Hall) as (i & item & is_resuming & Hnext).
  rewrite Hnext.
  destruct (process_item _ _ _ _ _ _ _ _ _ _ _) as [[[[o item'] prd'] f'] s1]
    eqn:Hrun.
  destruct (process_item_runs _ _ _ _ _ _ _ _ _ _ _ _ Hrun)
    as (evs & Htr & Hcount & Hexn).
  rewrite Hload, <- app_assoc in Htr.
  intros Hctl.
  assert (Hs : s' = s1 /\
               (forall e, ctl = Stop (Raised e) -> o = ItemDone (Some (Exn e))) /\
               (forall c, ctl <> Stop (Returned c))).
  { destruct o as [| |[[[|]|]|]]; simplify_eq; repeat split; try done;
      by intros ? [= <-]. }
  destruct Hs as (-> & Hraised & Hreturned).
  eexists. split; [exact Htr|]. split.
  { rewrite agent_runs_app. simpl. lia. }
  split.
  - intros e He. destruct (Hexn e (Hraised e He)) as (ev & Hlast & Hev).
    exists ev. split; [|done]. by rewrite last_app, Hlast.
  - intros c Hc. by destruct (Hreturned c).
Qed.

Lemma while_loop_runs fuel :
  forall iteration failures (s s' : RunState) e,
  while_loop repo_root model max_iterations max_failures no_commit
    fuel iteration failures s = Some (e, s') ->
  exists evs,
    trace s' = trace s ++ evs /\
    (length (agent_runs evs) <= Z.to_nat (max_iterations - iteration))%nat /\
    (forall x, e = Raised x ->
               exists ev, last evs = Some ev /\ raise_event x ev) /\
    (forall c, e = Returned c ->
               c = 1 \/
               (c = 0 /\ exists prd, last (loads evs) = Some prd
                                     /\ all_done prd = true)).
Proof.
  assert (Hstop : forall iteration failures (s s' : RunState) e,
    (iteration <? max_iterations) && (failures <? max_failures) = false ->
    after_loop repo_root max_iterations max_failures iteration failures s
    = (e, s') ->
    exists evs,
      trace s' = trace s ++ evs /\
      (length (agent_runs evs) <= Z.to_nat (max_iterations - iteration))%nat /\
      (forall x, e = Raised x ->
                 exists ev, last evs = Some ev /\ raise_event x ev) /\
      (forall c, e = Returned c ->
                 c = 1 \/
                 (c = 0 /\ exists prd, last (loads evs) = Some prd
                                       /\ all_done prd = true))).
  { intros iteration failures s s' e Hcond Hafter.
    destruct (after_loop_limits repo_root max_iterations max_failures
                iteration failures s Hcond) as (s1 & Heq & Htr & _).
    rewrite Heq in Hafter. injection Hafter as <- <-.
    eexists. split; [exact Htr|]. split; [simpl; lia|].
    split; [done|]. intros c [= <-]. by left. }
  induction fuel as [|fuel IH]; intros iteration failures s s' e; simpl.
  - destruct ((iteration <? max_iterations) && (failures <? max_failures))
      eqn:Hcond; [done|].
    intros [= H]. by eapply Hstop.
  - destruct ((iteration <? max_iterations) && (failures <? max_failures))
      eqn:Hcond.
    2:{ intros [= H]. by eapply Hstop. }
    apply andb_true_iff in Hcond as [Hlt _]. apply Z.ltb_lt in Hlt.
    destruct (loop_body _ _ _ _ iteration failures s) as [[e1|it' f'] s1]
      eqn:Hbody;
      destruct (loop_body_runs _ _ _ _ _ Hbody)
        as (evs1 & Htr1 & Hcount1 & Hraise1 & Hret1).
    + intros [= <- <-]. exists evs1. split; [done|]. split; [lia|].
      split.
      * intros x ->. by apply Hraise1.
      * intros c ->. right. by apply Hret1.
    + apply loop_body_continue in Hbody as ->.
      intros Hloop.
      destruct (IH _ _ _ _ _ Hloop) as (evs2 & Htr2 & Hcount2 & Hraise2 & Hret2).
      exists (evs1 ++ evs2). split; [by rewrite Htr2, Htr1, <- app_assoc|].
      split; [rewrite agent_runs_app, length_app; lia|].
      split.
      * intros x Hx. destruct (Hraise2 x Hx) as (ev & Hlast & Hev).
        exists ev. split; [|done]. by rewrite last_app, Hlast.
      * intros c Hc. destruct (Hret2 c Hc) as [->|(-> & prd & Hlast & Hall)];
          [by left|].
        right. split; [done|]. exists prd. split; [|done].
        by rewrite loads_app, last_app, Hlast.
Qed.

(** The four ways [run_loop] can start, and what the loop then adds. *)
Lemma run_loop_runs (w : World) :
  exists e s' o,
    run_loop repo_root model max_iterations max_failures no_commit w
    = Some (e, s') /\
    ((exists x, o = Threw x /\ e = Raised x
                /\ trace s' = [EvRun git_rev_parse o]) \/
     (exited_nonzero o /\ e = Returned 1
      /\ trace s' = [EvRun git_rev_parse o]) \/
     (exited 0 o /\ exists r x,
         load_error r = Some x /\ e = Returned 1
         /\ trace s' = [EvRun git_rev_parse o; EvLoad r]) \/
     (exited 0 o /\ exists prd touched evs,
         trace s' = [EvRun git_rev_parse o; EvLoad (Loaded prd)] ++ touched
                    ++ [EvProgress (harness_started_line max_iterations
                                      max_failures)] ++ evs /\
         (touched = [] \/ touched = [EvTouch]) /\
         (length (agent_runs evs) <= Z.to_nat max_iterations)%nat /\
         (forall x, e = Raised x ->
                    exists ev, last evs = Some ev /\ raise_event x ev) /\
         (forall c, e = Returned c ->
                    c = 1 \/
                    (c = 0 /\ exists prd', last (loads evs) = Some prd'
                                           /\ all_done prd' = true)))).
Proof.
  destruct (run_loop_total repo_root model max_iterations max_failures
              no_commit w) as [[e s'] Hrun].
  exists e, s'. pose proof Hrun as Hrun0.
  unfold run_loop in Hrun. unfold is_git_repo in Hrun.
  destruct (run _ repo_root (init_state w)) as [o s1] eqn:Hgit.
  apply trace_run in Hgit. simpl in Hgit. exists o. split; [exact Hrun0|].
  clear Hrun0.
  destruct o as [rc out err|x].
  2:{ left. exists x. by simplify_eq. }
  destruct (rc =? 0) eqn:Hrc.
  2:{ apply Z.eqb_neq in Hrc. right. left. simplify_eq.
      split; [by exists rc, out, err | done]. }
  apply Z.eqb_eq in Hrc as ->. right. right.
  destruct (load_prd repo_root s1) as [r s2] eqn:Hload.
  apply trace_load_prd in Hload. rewrite Hgit in Hload. simpl in Hload.
  destruct r as [x|x|x|prd];
    try (left; split; [by exists out, err|];
         match type of Hload with _ = [_; EvLoad ?r] => exists r, x end;
         by simplify_eq).
  right. split; [by exists out, err|].
  apply while_loop_runs in Hrun as (evs & Htr & Hcount & Hraise & Hret).
  rewrite trace_append_progress in Htr.
  replace (max_iterations - 0) with max_iterations in Hcount by lia.
  destruct (path_exists (get_progress_path repo_root) (world s2)) eqn:Hexists;
    simpl in Htr; rewrite ?trace_emit, Hload in Htr.
  - exists prd, [], evs. split; [by rewrite Htr, <- !app_assoc|]. by repeat split; auto.
  - exists prd, [EvTouch], evs. split; [by rewrite Htr, <- !app_assoc|].
    by repeat split; auto.
Qed.

End RunMore.

(** ** What a whole run does *)

Section RunTheorems.
Context {P : Platform}.
Variables (repo_root : Path) (model : string).
Variables (max_iterations max_failures : Z) (no_commit : bool).

Abbreviation run_loop'' :=
  (run_loop repo_root model max_iterations max_failures no_commit).

(** X12. A run launches the agent at most [max_iterations] times (never,
    when [max_iterations] is not positive), whatever the agent, the
    verification commands and git do. *)
Theorem agent_launches_bounded (w : World) :
  exists e s',
    run_loop'' w = Some (e, s') /\
    (length (agent_runs (trace s')) <= Z.to_nat max_iterations)%nat.
Proof.
  destruct (run_loop_runs repo_root model max_iterations max_failures
              no_commit w) as (e & s' & o & Hrun & Hcases).
  exists e, s'. split; [exact Hrun|].
  destruct Hcases as [(x & _ & _ & ->)|[(_ & _ & ->)|[(_ & r & x & _ & _ & ->)|
    (_ & prd & touched & evs & -> & Htouched & Hcount & _)]]];
    try (simpl; lia).
  rewrite !agent_runs_app.
  destruct Htouched as [-> | ->]; simpl; lia.
Qed.

(** X13. [run_loop] returns exit code 0 or 1, and 0 only when the document
    it loaded last is all done: every item done or blocked. *)
Theorem exit_0_only_when_all_done (w : World) :
  exists e s',
    run_loop'' w = Some (e, s') /\
    (forall c, e = Returned c -> c = 0 \/ c = 1) /\
    (e = Returned 0 ->
     exists prd, last (loads (trace s')) = Some prd /\ all_done prd = true).
Proof.
  destruct (run_loop_runs repo_root model max_iterations max_failures
              no_commit w) as (e & s' & o & Hrun & Hcases).
  exists e, s'. split; [exact Hrun|].
  destruct Hcases as [(x & _ & -> & _)|[(_ & -> & _)|[(_ & r & x & _ & -> & _)|
    (_ & prd & touched & evs & -> & _ & _ & _ & Hret)]]];
    try (split; [intros c [= <-]; by right | done]);
    try (split; [done | done]).
  split.
  - intros c Hc. destruct (Hret c Hc) as [->|[-> _]]; [by right | by left].
  - intros He. destruct (Hret 0 He) as [Hone|(_ & prd' & Hlast & Hall)];
      [done|].
    exists prd'. split; [|done].
    by rewrite !loads_app, !last_app, Hlast.
Qed.


(** X15. [run_loop] first checks the repository and then loads the
    document. When the check does not exit with code 0, or the document does
    not load, the run ends there with a failure: nothing is saved, logged,
    created or run. Otherwise the first thing written is the [Harness
    started] line of the progress log. *)
Theorem startup_errors_write_nothing (w : World) :
  exists e s' o,
    run_loop'' w = Some (e, s') /\
    ((~ exited 0 o /\ trace s' = [EvRun git_rev_parse o]
      /\ (e = Returned 1 \/ exists x, o = Threw x /\ e = Raised x)) \/
     (exited 0 o /\ exists r,
         is_Some (load_error r) /\ e = Returned 1
         /\ trace s' = [EvRun git_rev_parse o; EvLoad r]) \/
     (exited 0 o /\ exists prd rest,
         trace s' = EvRun git_rev_parse o :: EvLoad (Loaded prd) :: rest
         /\ head (progress_lines rest)
            = Some (harness_started_line max_iterations max_failures))).
Proof.
  destruct (run_loop_runs repo_root model max_iterations max_failures
              no_commit w) as (e & s' & o & Hrun & Hcases).
  exists e, s', o. split; [exact Hrun|].
  destruct Hcases as [(x & -> & -> & ->)|[(Hnz & -> & ->)|[(Hz & r & x & Hr & -> & ->)|
    (Hz & prd & touched & evs & -> & Htouched & _)]]].
  - left. split; [by intros (? & ? & [=])|]. split; [done|]. right. by exists x.
  - left. split; [|split; [done | by left]].
    destruct Hnz as (rc & out & err & -> & Hrc). by intros (? & ? & [= -> _ _]).
  - right. left. split; [done|]. exists r. by rewrite Hr.
  - right. right. split; [done|]. do 2 eexists. split; [reflexivity|].
    rewrite progress_lines_app. by destruct Htouched as [-> | ->].
Qed.

End RunTheorems.

(** ** The commands verified and the prompt *)

Section PromptAndVerify.
Context {P : Platform}.


Lemma str_contains_refl (s : string) : str_contains s s.
Proof. exists "", "". by rewrite app_empty_r. Qed.

Lemma str_contains_app_l (sub a b : string) :
  str_contains sub a -> str_contains sub (a +:+ b).
Proof.
  intros (pre & post & ->). exists pre, (post +:+ b).
  by rewrite !app_assoc_s.
Qed.

Lemma str_contains_app_r (sub a b : string) :
  str_contains sub b -> str_contains sub (a +:+ b).
Proof.
  intros (pre & post & ->). exists (a +:+ pre), post.
  by rewrite !app_assoc_s.
Qed.

Lemma str_contains_trans (a b c : string) :
  str_contains a b -> str_contains b c -> str_contains a c.
Proof.
  intros Hab (pre & post & ->).
  by apply str_contains_app_r, str_contains_app_l.
Qed.

Lemma str_contains_join sep (ls : list string) x :
  x ∈ ls -> str_contains x (str_join sep ls).
Proof.
  unfold str_join. induction ls as [|a ls IH]; intros Hin.
  - by apply elem_of_nil in Hin.
  - apply elem_of_cons in Hin as [->|Hin].
    + destruct ls; [apply str_contains_refl|].
      simpl. apply str_contains_app_l, str_contains_refl.
    + destruct ls as [|b ls]; [by apply elem_of_nil in Hin|].
      change (String.concat sep (a :: b :: ls))
        with (a +:+ sep +:+ String.concat sep (b :: ls)).
      by apply str_contains_app_r, str_contains_app_r, IH.
Qed.

Lemma str_contains_unlines (ls : list string) x :
  x ∈ ls -> str_contains x (unlines ls).
Proof.
  induction ls as [|a ls IH]; intros Hin.
  - by apply elem_of_nil in Hin.
  - simpl. apply elem_of_cons in Hin as [->|Hin].
    + apply str_contains_app_l, str_contains_refl.
    + by apply str_contains_app_r, str_contains_app_r, IH.
Qed.

Lemma str_contains_bullets (xs : list string) x :
  x ∈ xs -> str_contains ("- " +:+ x) (bullets xs).
Proof.
  intros Hin. apply str_contains_join. apply list_elem_of_fmap. by exists x.
Qed.

(** X17. The prompt handed to the agent names the task and how it will be
    judged: it contains the id and title lines, the description, a bullet
    for every acceptance criterion and every file hint, the path of the
    progress log, and a bullet for each command that the verification of
    the item will run. *)
Theorem prompt_names_task_and_verification item prd repo_root :
  let prompt := build_agent_prompt item prd repo_root in
  str_contains ("**ID:** " +:+ id item) prompt /\
  str_contains ("**Title:** " +:+ title item) prompt /\
  str_contains (description item) prompt /\
  (forall c, c ∈ acceptance_criteria item -> str_contains ("- " +:+ c) prompt) /\
  (forall f, f ∈ files_hint item -> str_contains ("- " +:+ f) prompt) /\
  (forall cmd, cmd ∈ verify_or_global item prd ->
               str_contains ("- `" +:+ cmd +:+ "`") prompt) /\
  str_contains (get_progress_path repo_root) prompt.
Proof.
  unfold build_agent_prompt.
  match goal with
  | |- context [unlines ?l1] =>
      match goal with
      | |- context [_ +:+ unlines ?l3] =>
          set (part1 := unlines l1);
          assert (H1 : forall x, x ∈ l1 -> str_contains x part1)
            by (intros x Hx; by apply str_contains_unlines);
          set (part3 := unlines l3);
          assert (H3 : forall x, x ∈ l3 -> str_contains x part3)
            by (intros x Hx; by apply str_contains_unlines)
      end
  end.
  clearbody part1 part3.
  assert (Hpart1 : forall x, str_contains x part1 ->
    str_contains x
      (match files_hint item with
       | [] => part1
       | fs => part1 +:+ unlines ["**Files to focus on:**"; bullets fs; ""]
       end +:+ part3)).
  { intros x Hx. apply str_contains_app_l.
    destruct (files_hint item); [done | by apply str_contains_app_l]. }
  cbv zeta. repeat split.
  - apply Hpart1, H1. solve [repeat first [left | right]].
  - apply Hpart1, H1. solve [repeat first [left | right]].
  - apply Hpart1, H1. solve [repeat first [left | right]].
  - intros c Hc. apply Hpart1.
    eapply str_contains_trans; [by apply str_contains_bullets|].
    apply H1. solve [repeat first [left | right]].
  - intros f Hf. apply str_contains_app_l.
    destruct (files_hint item) as [|f0 fs] eqn:Hfs; [by apply elem_of_nil in Hf|].
    apply str_contains_app_r.
    eapply str_contains_trans; [by apply str_contains_bullets|].
    apply str_contains_unlines. solve [repeat first [left | right]].
  - intros cmd Hcmd. apply str_contains_app_r.
    apply str_contains_trans
      with (str_join nl (map (fun cmd => "- `" +:+ cmd +:+ "`")
                           (verify_or_global item prd))).
    + apply str_contains_join. apply list_elem_of_fmap. by exists cmd.
    + apply H3. solve [repeat first [left | right]].
  - apply str_contains_app_r.
    apply str_contains_trans
      with ("You can read and write to the progress log file at `"
            +:+ get_progress_path repo_root
            +:+ "` to maintain context across sessions.").
    + apply str_contains_app_r, str_contains_app_l, str_contains_refl.
    + apply H3. solve [repeat first [left | right]].
Qed.

End PromptAndVerify.

(** ** cli.py: [reset] and [status] *)

Section CliCommands.
Context {P : Platform}.

Lemma reset_status_default it : status (reset_status it) = default_status.
Proof. reflexivity. Qed.

Lemma reset_status_same_description it : same_description (reset_status it) it.
Proof. by repeat split. Qed.

(** The loop of [reset] over all items, item by item. *)
Lemma reset_all_spec include_blocked l :
  forall n, exists l',
    reset_all include_blocked l n
    = (l', n + Z.of_nat (length (filter (fun it => reset_skips include_blocked it = false) l)))
    /\ Forall2 (fun a b => b = if reset_skips include_blocked a
                                then a else reset_status a) l l'.
Proof.
  induction l as [|it l IH]; intros n.
  - exists []. simpl. split; [f_equal; lia | constructor].
  - simpl.
    assert (Hskip : reset_skips include_blocked it
                    = bool_decide (state (status it) = TODO)
                      || (bool_decide (state (status it) = BLOCKED)
                          && negb include_blocked)) by reflexivity.
    destruct (bool_decide (state (status it) = BLOCKED) && negb include_blocked)
      eqn:Hblocked.
    + rewrite orb_true_r in Hskip.
      destruct (IH n) as (l' & -> & Hall). exists (it :: l').
      rewrite filter_cons_False by (by rewrite Hskip).
      split; [done|]. constructor; [by rewrite Hskip | done].
    + rewrite orb_false_r in Hskip.
      destruct (bool_decide (state (status it) = TODO)) eqn:Htodo; simpl.
      * destruct (IH n) as (l' & -> & Hall). exists (it :: l').
        rewrite filter_cons_False by (by rewrite Hskip).
        split; [done|]. constructor; [by rewrite Hskip | done].
      * destruct (IH (n + 1)) as (l' & -> & Hall).
        exists (reset_status it :: l').
        rewrite filter_cons_True by done.
        split; [f_equal; simpl length; lia|].
        constructor; [by rewrite Hskip | done].
Qed.

Lemma reset_skips_cases include_blocked it :
  reset_skips include_blocked it
  = match state (status it) with
    | TODO => true
    | BLOCKED => negb include_blocked
    | _ => false
    end.
Proof.
  unfold reset_skips. repeat case_bool_decide;
    destruct (state (status it)); simpl; congruence.
Qed.

Lemma reset_count_by_state include_blocked prd :
  Z.of_nat (length (filter (fun it => reset_skips include_blocked it = false)
                      (items prd)))
  = count_by_state prd DOING + count_by_state prd DONE
    + (if include_blocked then count_by_state prd BLOCKED else 0).
Proof.
  rewrite !count_by_state_filter.
  induction (items prd) as [|it l IH]; [by destruct include_blocked|].
  pose proof (reset_skips_cases include_blocked it) as Hskip.
  rewrite !(filter_cons _ it).
  destruct (decide (has_state DOING it)) as [H1|H1],
    (decide (has_state DONE it)) as [H2|H2],
    (decide (has_state BLOCKED it)) as [H3|H3],
    (decide (reset_skips include_blocked it = false)) as [H4|H4];
    unfold has_state in H1, H2, H3; rewrite Hskip in H4;
    destruct (state (status it)); try congruence;
    destruct include_blocked; simpl in *; try congruence; lia.
Qed.

(** X18. [reset] without an item id (or with an empty one) puts every item
    that is doing or done, and with [--include-blocked] every blocked item
    too, back to the status of a new item, and leaves the others exactly as
    they are, todo items with their attempts counter included; it reports
    the number of items it changed, saves the document once and ends with
    code 0. Afterwards no item is doing or done. *)
Theorem reset_all_items repo_root item_id include_blocked (s s0 : RunState) prd :
  load_prd repo_root s = (Loaded prd, s0) ->
  item_id = None \/ item_id = Some "" ->
  exists prd',
    reset repo_root item_id include_blocked s
    = (0,
       [CliResetDone
          (count_by_state prd DOING + count_by_state prd DONE
           + (if include_blocked then count_by_state prd BLOCKED else 0))],
       save_prd repo_root prd' s0) /\
    Forall2 (fun a b => same_description b a /\
                        if reset_skips include_blocked a
                        then b = a else status b = default_status)
            (items prd) (items prd') /\
    version prd' = version prd /\ project prd' = project prd /\
    global_config prd' = global_config prd /\
    none_in_state DOING prd' /\ none_in_state DONE prd' /\
    (include_blocked = true -> none_in_state BLOCKED prd').
Proof.
  intros Hload Hid. unfold reset. rewrite Hload.
  destruct (reset_all_spec include_blocked (items prd) 0) as (l' & Hreset & Hall).
  assert (Hbody : (let '(l, reset_count) := reset_all include_blocked (items prd) 0 in
                   (0, [CliResetDone reset_count],
                    save_prd repo_root (with_items l prd) s0))
                  = (0,
                     [CliResetDone
                        (count_by_state prd DOING + count_by_state prd DONE
                         + (if include_blocked then count_by_state prd BLOCKED
                            else 0))],
                     save_prd repo_root (with_items l' prd) s0)).
  { rewrite Hreset, reset_count_by_state. do 3 f_equal. }
  exists (with_items l' prd). split.
  { destruct Hid as [-> | ->]; exact Hbody. }
  simpl.
  assert (Hstate : forall st, (st = DOING \/ st = DONE \/
                               (st = BLOCKED /\ include_blocked = true)) ->
                              forall it, it ∈ l' -> state (status it) <> st).
  { intros st Hst it Hin.
    apply list_elem_of_lookup in Hin as [j Hj].
    destruct (Forall2_lookup_r _ _ _ _ _ Hall Hj) as (a & _ & ->).
    rewrite reset_skips_cases.
    destruct (state (status a)) eqn:Ha, include_blocked; simpl;
      try rewrite Ha; destruct Hst as [->|[->|[-> Hib]]]; done. }
  split.
  { eapply Forall2_impl; [exact Hall|]. intros a b ->.
    destruct (reset_skips include_blocked a);
      [by repeat split | split; [apply reset_status_same_description | done]]. }
  do 3 (split; [done|]).
  split; [intros it Hin; by apply (Hstate DOING); [left|]|].
  split; [intros it Hin; by apply (Hstate DONE); [right; left|]|].
  intros -> it Hin. by apply (Hstate BLOCKED); [right; right|].
Qed.

(** X19. [reset] with an item id looks for the first item carrying the id.
    When no item carries it, or when that item is blocked and blocked items
    are not included, it ends with code 1 and leaves the document as it is.
    Otherwise it gives that one item the status of a new item (todo, no
    attempts, no error, no [done_at]), touches nothing else, saves the
    document and ends with code 0. *)
Theorem reset_one_item repo_root c rest include_blocked (s s0 : RunState) prd :
  load_prd repo_root s = (Loaded prd, s0) ->
  let item_id := String c rest in
  ((forall it, it ∈ items prd -> id it <> item_id) ->
   reset repo_root (Some item_id) include_blocked s
   = (1, [CliItemNotFound item_id], s0)) /\
  (forall i item,
     items prd !! i = Some item -> id item = item_id ->
     (forall j other, items prd !! j = Some other -> (j < i)%nat ->
                      id other <> item_id) ->
     (state (status item) = BLOCKED -> include_blocked = false ->
      reset repo_root (Some item_id) include_blocked s
      = (1, [CliItemBlocked item_id], s0)) /\
     (state (status item) <> BLOCKED \/ include_blocked = true ->
      exists prd' item',
        reset repo_root (Some item_id) include_blocked s
        = (0, [CliResetDone 1], save_prd repo_root prd' s0) /\
        items prd' !! i = Some item' /\
        status item' = default_status /\ same_description item' item /\
        (forall j, j <> i -> items prd' !! j = items prd !! j) /\
        length (items prd') = length (items prd) /\
        version prd' = version prd /\ project prd' = project prd /\
        global_config prd' = global_config prd)).
Proof.
  intros Hload item_id. subst item_id. unfold reset. rewrite Hload.
  cbv zeta. set (item_id := String c rest). split.
  - intros Hnone.
    assert (get_item_by_id prd item_id = None) as ->; [|done].
    unfold get_item_by_id. apply list_find_None, Forall_forall. exact Hnone.
  - intros i item Hlk Hid Hfirst.
    assert (get_item_by_id prd item_id = Some (i, item)) as ->.
    { unfold get_item_by_id. apply list_find_Some. by repeat split. }
    split.
    + intros Hst ->. by rewrite bool_decide_eq_true_2.
    + intros Hok.
      assert (bool_decide (state (status item) = BLOCKED) && negb include_blocked
              = false) as ->.
      { destruct Hok as [Hne| ->]; [|by rewrite andb_false_r].
        by rewrite bool_decide_eq_false_2. }
      exists (store i (reset_status item) prd), (reset_status item).
      split; [done|]. unfold store. simpl.
      split; [apply list_lookup_insert_eq; by eapply lookup_lt_Some|].
      split; [done|]. split; [apply reset_status_same_description|].
      split; [intros j Hj; by apply list_lookup_insert_ne|].
      split; [apply length_insert | done].
Qed.

Lemma reset_all_consistent include_blocked (l l' : list WorkItem) :
  Forall2 (fun a b => b = if reset_skips include_blocked a
                          then a else reset_status a) l l' ->
  (Forall done_at_iff_done l -> Forall done_at_iff_done l') /\
  (forall it, it ∈ l' -> state (status it) <> DOING).
Proof.
  intros Hall. split.
  - intros Hl. induction Hall as [|a b l l' Hb Hall IH]; [constructor|].
    apply Forall_cons in Hl as [Ha Hl]. constructor; [|by apply IH].
    subst b. destruct (reset_skips include_blocked a); [done|].
    unfold done_at_iff_done. simpl. split; [by intros [? [=]] | done].
  - intros it Hin. apply list_elem_of_lookup in Hin as [j Hj].
    destruct (Forall2_lookup_r _ _ _ _ _ Hall Hj) as (a & _ & ->).
    rewrite reset_skips_cases.
    destruct (state (status a)) eqn:Ha, include_blocked; simpl;
      try rewrite Ha; done.
Qed.

(** X20. [reset] ends with code 0 or 1. With code 1 it has written nothing:
    the document is as it was. With code 0 it has saved the document exactly
    once, with as many items as before, and the saved document keeps what
    the loop relies on: [done_at] is present exactly on done items, and at
    most one item is doing, whenever that held of the document it loaded. *)
Theorem reset_saves_once_or_nothing repo_root item_id include_blocked
    (s : RunState) :
  exists r evs,
    let '(code, _, s') := reset repo_root item_id include_blocked s in
    trace s' = trace s ++ EvLoad r :: evs /\
    ((code = 1 /\ evs = []) \/
     (code = 0 /\ exists prd prd',
         r = Loaded prd /\ evs = [EvSave prd'] /\
         length (items prd') = length (items prd) /\
         (done_at_consistent prd -> done_at_consistent prd') /\
         (at_most_one_doing prd -> at_most_one_doing prd'))).
Proof.
  unfold reset.
  destruct (load_prd repo_root s) as [r s0] eqn:Hload.
  apply trace_load_prd in Hload. exists r.
  destruct r as [e|e|e|prd];
    try (exists []; split; [exact Hload | by left]).
  assert (Hall_case :
    let '(code, _, s') :=
      (let '(l, reset_count) := reset_all include_blocked (items prd) 0 in
       (0, [CliResetDone reset_count],
        save_prd repo_root (with_items l prd) s0)) in
    exists evs,
      trace s' = trace s ++ EvLoad (Loaded prd) :: evs /\
      ((code = 1 /\ evs = []) \/
       (code = 0 /\ exists prd0 prd',
           Loaded prd = Loaded prd0 /\ evs = [EvSave prd'] /\
           length (items prd') = length (items prd0) /\
           (done_at_consistent prd0 -> done_at_consistent prd') /\
           (at_most_one_doing prd0 -> at_most_one_doing prd')))).
  { destruct (reset_all_spec include_blocked (items prd) 0)
      as (l' & -> & Hall).
    destruct (reset_all_consistent _ _ _ Hall) as [Hdone Hdoing].
    eexists. split.
    { rewrite trace_save_prd, Hload, <- app_assoc. reflexivity. }
    right. split; [done|]. exists prd, (with_items l' prd). simpl.
    split; [done|]. split; [done|].
    split; [symmetry; by eapply Forall2_length|].
    split; [exact Hdone|].
    intros _. unfold at_most_one_doing.
    rewrite (none_in_state_count (with_items l' prd) DOING); [lia|].
    exact Hdoing. }
  destruct item_id as [[|c rest]|].
  - destruct (let '(l, reset_count) := reset_all include_blocked (items prd) 0 in _)
      as [[code out] s']. destruct Hall_case as (evs & H). by exists evs.
  - destruct (get_item_by_id prd (String c rest)) as [[i item]|] eqn:Hfind.
    2:{ exists []. split; [exact Hload | by left]. }
    destruct (bool_decide (state (status item) = BLOCKED) && negb include_blocked).
    { exists []. split; [exact Hload | by left]. }
    apply list_find_Some in Hfind as (Hlk & _).
    eexists. split.
    { rewrite trace_save_prd, Hload, <- app_assoc. reflexivity. }
    right. split; [done|]. exists prd, (store i (reset_status item) prd).
    split; [done|]. split; [done|]. unfold store at 1. simpl.
    split; [apply length_insert|]. split.
    + intros Hcons. unfold done_at_consistent, store. simpl.
      apply Forall_insert; [exact Hcons|].
      unfold done_at_iff_done. simpl. split; [by intros [? [=]] | done].
    + unfold at_most_one_doing. intros Hone.
      pose proof (count_by_state_store prd DOING i item (reset_status item) Hlk)
        as Hcount.
      rewrite (decide_False (P := has_state DOING (reset_status item)))
        in Hcount by done.
      destruct (decide (has_state DOING item)); lia.
  - destruct (let '(l, reset_count) := reset_all include_blocked (items prd) 0 in _)
      as [[code out] s']. destruct Hall_case as (evs & H). by exists evs.
Qed.

Lemma status_row_bounded it : bounded_row it (status_row it).
Proof.
  unfold bounded_row, status_row. do 3 eexists. split; [reflexivity|].
  split.
  { rewrite length_app_s. pose proof (str_prefix_length_le 40 (title it)).
    destruct (40 <? String.length (title it))%nat; simpl; lia. }
  split.
  { intros Hshort. unfold str_prefix. rewrite substring_whole by done.
    destruct (40 <? String.length (title it))%nat eqn:Hlt;
      [apply Nat.ltb_lt in Hlt; lia | apply app_empty_r]. }
  destruct (last_error (status it)) as [err|];
    [|split; [simpl; lia|]; split; [done|]; by intros ? [=]].
  destruct (negb (String.eqb err "") && (50 <? String.length err)%nat) eqn:Hlong.
  - apply andb_true_iff in Hlong as [_ Hlong]. apply Nat.ltb_lt in Hlong.
    split.
    { rewrite length_app_s. pose proof (str_prefix_length_le 50 err).
      simpl. lia. }
    split; [done|]. intros err' [= <-] Hshort. lia.
  - apply andb_false_iff in Hlong as [Hempty|Hshort].
    + apply negb_false_iff, String.eqb_eq in Hempty as ->.
      split; [simpl; lia|]. split; [done|]. by intros err' [= <-].
    + apply Nat.ltb_ge in Hshort.
      split; [lia|]. split; [done|]. by intros err' [= <-].
Qed.


End CliCommands.

(** ** The commands in the simulated world *)

Section CliRuns.
Import Sim CliSamples.

(** Looking up the third item of [mixed_backlog] by its id. *)
Lemma get_item_by_id_unique_witness :
  get_item_by_id mixed_backlog "c" = Some (2%nat, item_c).
Proof.
  apply (get_item_by_id_unique mixed_backlog 2 item_c).
  - refine (bool_decide_unpack _ _). vm_compute. exact I.
  - reflexivity.
Defined.

(** Resetting all of [mixed_backlog]: the done item and the two doing items
    are reset, the blocked item is not. *)
Lemma reset_all_items_witness :
  exists prd',
    @reset sim_platform "." None false (@init_state sim_platform reset_world)
    = (0, [CliResetDone 3], @save_prd sim_platform "." prd' reset_loaded.2)
    /\ none_in_state DOING prd'.
Proof.
  destruct (@reset_all_items sim_platform "." None false
              (@init_state sim_platform reset_world) reset_loaded.2
              mixed_backlog)
    as (prd' & Hreset & _ & _ & _ & _ & Hdoing & _).
  - vm_compute. reflexivity.
  - left. reflexivity.
  - exists prd'. split; [exact Hreset | exact Hdoing].
Defined.

(** Resetting the item [c] of [mixed_backlog]. *)
Lemma reset_one_item_witness :
  exists prd' item',
    @reset sim_platform "." (Some "c") false
      (@init_state sim_platform reset_world)
    = (0, [CliResetDone 1], @save_prd sim_platform "." prd' reset_loaded.2)
    /\ items prd' !! 2%nat = Some item'
    /\ status item' = default_status.
Proof.
  assert (Hload : @load_prd sim_platform "." (@init_state sim_platform reset_world)
                  = (Loaded mixed_backlog, reset_loaded.2)).
  { vm_compute. reflexivity. }
  destruct (proj2 (@reset_one_item sim_platform "." (Ascii.ascii_of_nat 99) "" false
                     (@init_state sim_platform reset_world) reset_loaded.2
                     mixed_backlog Hload) 2%nat item_c)
    as [_ Hreset].
  - reflexivity.
  - reflexivity.
  - intros j other Hj Hlt.
    destruct j as [|[|j]]; [| |lia]; injection Hj as <-; discriminate.
  - destruct Hreset as (prd' & item' & Hreset & Hlk & Hstatus & _).
    + left. discriminate.
    + exists prd', item'. split; [exact Hreset|]. split; [exact Hlk | exact Hstatus].
Defined.


End CliRuns.

(** ** Done and blocked items *)

Section TerminalItems.
Context {P : Platform}.
Variables (repo_root : Path) (model : string).
Variables (max_iterations : Z) (no_commit : bool).

(** X22. The item an iteration works on is in state todo or doing; an item
    that is done or blocked when the document is loaded is never selected,
    and it is the same, at the same position, in every document the
    iteration saves and in the document it leaves. *)
Theorem done_and_blocked_items_are_left_alone prd i item is_resuming iteration
    failures (s : RunState) o item' prd' failures' s' evs :
  get_next_item prd = (Some (i, item), is_resuming) ->
  process_item repo_root model max_iterations no_commit
    i item is_resuming prd iteration failures s
  = (o, item', prd', failures', s') ->
  trace s' = trace s ++ evs ->
  (state (status item) = TODO \/ state (status item) = DOING) /\
  forall j it,
    items prd !! j = Some it ->
    state (status it) = DONE \/ state (status it) = BLOCKED ->
    items prd' !! j = Some it /\
    Forall (fun saved => items saved !! j = Some it) (saves evs).
Proof.
  intros Hnext Hrun Hevs.
  pose proof (get_next_item_cases prd) as Hcases. rewrite Hnext in Hcases.
  assert (Hitem : items prd !! i = Some item /\
                  (state (status item) = TODO \/ state (status item) = DOING)).
  { destruct is_resuming.
    - destruct Hcases as (Hlk & Hst & _). split; [done | by right].
    - destruct Hcases as (_ & Hlk & Hst & _). split; [done | by left]. }
  destruct Hitem as [Hlk Hstate]. split; [exact Hstate|].
  intros j it Hj Hterminal.
  assert (Hne : j <> i).
  { intros ->. rewrite Hlk in Hj. injection Hj as ->.
    destruct Hstate as [Hs|Hs], Hterminal as [Ht|Ht]; congruence. }
  destruct (process_item_spec _ _ _ _ _ _ _ _ _ _ _ _ _ _ _ _ Hrun)
    as (o1 & m1 & vevs & st0 & m2 & gevs & _ & _ & _ & Hitem' & Hprd' & _).
  destruct (process_item_saves _ _ _ _ _ _ _ _ _ _ _ _ _ _ _ _ _ Hrun Hevs)
    as (_ & st' & Hsaves & _).
  assert (Hstore : forall x, items (store i x prd) !! j = Some it).
  { intros x. unfold store. simpl. by rewrite list_lookup_insert_ne. }
  split; [subst prd'; apply Hstore|].
  rewrite Hsaves. destruct is_resuming; repeat constructor; apply Hstore.
Qed.

End TerminalItems.

Section TerminalItemsRun.
Import Sim CliSamples IterationSamples.

(** Resuming the third item of [mixed_backlog] leaves its done first item
    where it is. *)
Lemma done_and_blocked_items_are_left_alone_witness :
  items (prd_of mixed_iteration) !! 0%nat
  = Some (simple_item "a" None (status_of DONE 1 (Some 5))).
Proof.
  destruct (@done_and_blocked_items_are_left_alone sim_platform "." "m" 50 false
              mixed_backlog 2%nat item_c true 1 0
              (@init_state sim_platform reset_world)
              (outcome_of mixed_iteration) (item_of mixed_iteration)
              (prd_of mixed_iteration) (failures_of mixed_iteration)
              (state_of mixed_iteration)
              (trace (state_of mixed_iteration)))
    as [_ Hleft].
  - reflexivity.
  - vm_compute. reflexivity.
  - reflexivity.
  - destruct (Hleft 0%nat (simple_item "a" None (status_of DONE 1 (Some 5))))
      as [Hlk _]; [reflexivity | by left | exact Hlk].
Defined.

End TerminalItemsRun.

(** ** A run in a cooperative environment *)

Section Cooperative.
Context {P : Platform}.
Variables (repo_root : Path) (model : string).
Variables (max_iterations max_failures : Z) (no_commit : bool).
Hypothesis Hcoop : cooperative repo_root model.

Lemma world_print_all ms (s : RunState) : world (print_all ms s) = world s.
Proof.
  revert s. induction ms as [|m ms IH]; intros s; [done|].
  simpl. by rewrite IH.
Qed.

Lemma world_show_item iteration item prd (s : RunState) :
  world (show_item max_iterations iteration item prd s) = world s.
Proof.
  unfold show_item.
  destruct (verify_or_global item prd), (files_hint item),
    (acceptance_criteria item), (description item);
    repeat first [rewrite world_print_all | rewrite world_print]; reflexivity.
Qed.

Lemma disk_run c (s : RunState) prd :
  disk_is repo_root (world s) prd ->
  disk_is repo_root (world (run c repo_root s).2) prd /\
  (run c repo_root s).1 = (subprocess_run c repo_root (world s)).1.
Proof.
  intros Hdisk. destruct Hcoop as (_ & Hrun & _).
  specialize (Hrun c (world s) prd Hdisk). unfold run.
  by destruct (subprocess_run c repo_root (world s)).
Qed.

Lemma disk_append_progress m (s : RunState) prd :
  disk_is repo_root (world s) prd ->
  disk_is repo_root (world (append_progress repo_root m s)) prd.
Proof. intros Hdisk. destruct Hcoop as (_ & _ & Happend & _). by apply Happend. Qed.

Lemma disk_save_prd prd (s : RunState) :
  disk_is repo_root (world (save_prd repo_root prd s)) prd.
Proof. destruct Hcoop as (Hwrite & _). apply Hwrite. Qed.

Lemma load_prd_coop (s : RunState) prd :
  disk_is repo_root (world s) prd ->
  exists s', load_prd repo_root s = (Loaded prd, s') /\ world s' = world s.
Proof.
  intros [Hexists Hread]. unfold load_prd. rewrite Hexists, Hread. simpl.
  by eexists.
Qed.

Lemma run_agent_coop prompt (s : RunState) prd :
  disk_is repo_root (world s) prd ->
  exists s', run_agent repo_root prompt model s = (true, "", s')
             /\ disk_is repo_root (world s') prd.
Proof.
  intros Hdisk. unfold run_agent.
  destruct (disk_run (agent_command model prompt)
              (print (ConAgentCommand model) s) prd Hdisk) as [Hdisk' Hout].
  unfold agent_command in *.
  destruct (run _ repo_root _) as [o s1]. simpl in *.
  destruct Hcoop as (_ & _ & _ & _ & _ & Hagent & _).
  destruct (Hagent prompt (world s)) as (out & err & Hexit).
  unfold agent_command in Hexit. rewrite Hexit in Hout. subst o. simpl.
  by eexists.
Qed.

Lemma verify_command_coop cmd all_passed results (s : RunState) prd :
  disk_is repo_root (world s) prd ->
  exists results' s',
    verify_command repo_root (all_passed, results, s) cmd
    = (all_passed, results', s')
    /\ disk_is repo_root (world s') prd.
Proof.
  intros Hdisk. unfold verify_command.
  destruct (disk_run (Shell cmd) (print (ConRunning cmd) s) prd Hdisk)
    as [Hdisk' Hout].
  destruct (run _ repo_root _) as [o s1]. simpl in *.
  destruct Hcoop as (_ & _ & _ & _ & _ & _ & Hshell & _).
  destruct (Hshell cmd (world s)) as (out & err & Hexit).
  rewrite Hexit in Hout. subst o. simpl. by do 2 eexists.
Qed.

Lemma verify_fold_coop commands prd :
  forall all_passed results (s : RunState),
  disk_is repo_root (world s) prd ->
  exists results' s',
    fold_left (verify_command repo_root) commands (all_passed, results, s)
    = (all_passed, results', s')
    /\ disk_is repo_root (world s') prd.
Proof.
  induction commands as [|cmd commands IH]; intros all_passed results s Hdisk.
  - by exists results, s.
  - change (fold_left (verify_command repo_root) (cmd :: commands)
              (all_passed, results, s))
      with (fold_left (verify_command repo_root) commands
              (verify_command repo_root (all_passed, results, s) cmd)).
    destruct (verify_command_coop cmd all_passed results s prd Hdisk)
      as (results1 & s1 & -> & Hdisk1).
    by apply IH.
Qed.

Lemma verify_item_coop item prd0 (s : RunState) prd :
  disk_is repo_root (world s) prd ->
  exists results s',
    verify_item repo_root item prd0 s = (true, results, s')
    /\ disk_is repo_root (world s') prd.
Proof.
  intros Hdisk. unfold verify_item.
  destruct (verify_or_global item prd0) as [|c cs]; [by do 2 eexists|].
  unfold run_verification. by apply verify_fold_coop.
Qed.

Lemma git_commit_coop message (s : RunState) prd :
  disk_is repo_root (world s) prd ->
  exists b s', git_commit repo_root message s = (Ok b, s')
               /\ disk_is repo_root (world s') prd.
Proof.
  intros Hdisk. unfold git_commit.
  assert (Hgit : forall args (s0 : RunState) e,
            (run (Argv ("git" :: args)) repo_root s0).1 <> Threw e).
  { intros args s0 e. unfold run.
    destruct Hcoop as (_ & _ & _ & _ & _ & _ & _ & Hlaunch).
    specialize (Hlaunch args (world s0) e).
    by destruct (subprocess_run _ repo_root (world s0)). }
  destruct (disk_run (Argv ["git"; "add"; "-A"]) s prd Hdisk) as [Hdisk1 _].
  pose proof (Hgit ["add"; "-A"] s) as Hno1.
  destruct (run (Argv ["git"; "add"; "-A"]) repo_root s) as [o1 s1].
  simpl in *. destruct o1 as [rc1 ? ?|e1]; [|by destruct (Hno1 e1)].
  destruct (negb (rc1 =? 0)); [by do 2 eexists|].
  destruct (disk_run (Argv ["git"; "diff"; "--cached"; "--quiet"]) s1 prd Hdisk1)
    as [Hdisk2 _].
  pose proof (Hgit ["diff"; "--cached"; "--quiet"] s1) as Hno2.
  destruct (run (Argv ["git"; "diff"; "--cached"; "--quiet"]) repo_root s1)
    as [o2 s2].
  simpl in *. destruct o2 as [rc2 ? ?|e2]; [|by destruct (Hno2 e2)].
  destruct (rc2 =? 0); [by do 2 eexists|].
  destruct (disk_run (Argv ["git"; "commit"; "-m"; message]) s2 prd Hdisk2)
    as [Hdisk3 _].
  pose proof (Hgit ["commit"; "-m"; message] s2) as Hno3.
  destruct (run (Argv ["git"; "commit"; "-m"; message]) repo_root s2)
    as [o3 s3].
  simpl in *. destruct o3 as [rc3 ? ?|e3]; [|by destruct (Hno3 e3)].
  destruct (negb (rc3 =? 0)); by do 2 eexists.
Qed.

Lemma on_verification_passed_coop i item prd0 (s : RunState) :
  exists commit t s',
    let item' := with_status (completed t) item in
    on_verification_passed repo_root no_commit i item prd0 s
    = (commit, item', store i item' prd0, s') /\
    (forall e, commit <> Some (Exn e)) /\
    disk_is repo_root (world s') (store i item' prd0).
Proof.
  unfold on_verification_passed.
  set (item' := with_status (set_last_error None)
                  (with_status (set_done_at (Some (utc_now (world (print ConVerificationPassed s)))))
                     (with_status (set_state DONE) item))).
  assert (Hdisk : disk_is repo_root
            (world (print ConCommitting
                      (append_progress repo_root
                         ("Item " +:+ id item' +:+ " completed successfully")
                         (save_prd repo_root (store i item' prd0)
                            (print ConVerificationPassed s)))))
            (store i item' prd0)).
  { apply disk_append_progress, disk_save_prd. }
  destruct no_commit; simpl.
  - exists None, (utc_now (world s)). eexists. split; [reflexivity|].
    split; [done|]. exact Hdisk.
  - destruct (git_commit_coop
                ("ralph: Complete " +:+ id item' +:+ " - " +:+ title item')
                _ _ Hdisk) as (b & s2 & Hgit & Hdisk2).
    simpl in Hgit. rewrite Hgit.
    exists (Some (Ok b)), (utc_now (world s)).
    destruct b; eexists; (split; [reflexivity|]); (split; [done|]); exact Hdisk2.
Qed.

(** One iteration in a cooperative environment: the item is done. *)
Lemma process_item_coop i item is_resuming prd iteration failures (s : RunState) :
  disk_is repo_root (world s) prd ->
  exists commit t s',
    let item' := with_status (completed t) (item_in_progress item is_resuming) in
    process_item repo_root model max_iterations no_commit
      i item is_resuming prd iteration failures s
    = (ItemDone commit, item', store i item' prd, failures, s') /\
    (forall e, commit <> Some (Exn e)) /\
    disk_is repo_root (world s') (store i item' prd).
Proof.
  intros Hdisk. unfold process_item.
  assert (Hstart : exists s1 prd1,
    start_or_resume repo_root i item is_resuming prd
      (show_item max_iterations iteration item prd s)
    = (item_in_progress item is_resuming,
       prd_in_progress i item is_resuming prd, s1)
    /\ disk_is repo_root (world s1) prd1).
  { unfold start_or_resume, item_in_progress, prd_in_progress.
    destruct is_resuming.
    - do 2 eexists. split; [reflexivity|].
      apply disk_append_progress. simpl. rewrite world_show_item. exact Hdisk.
    - do 2 eexists. split; [reflexivity|].
      apply disk_append_progress. simpl. apply disk_save_prd. }
  destruct Hstart as (s1 & prd1 & -> & Hdisk1).
  destruct (run_agent_coop
              (build_agent_prompt (item_in_progress item is_resuming)
                 (prd_in_progress i item is_resuming prd) repo_root)
              (print ConRunningAgent s1) prd1 Hdisk1) as (s2 & -> & Hdisk2).
  simpl.
  destruct (verify_item_coop (item_in_progress item is_resuming)
              (prd_in_progress i item is_resuming prd) s2 prd1 Hdisk2)
    as (vr & s3 & -> & Hdisk3).
  destruct (on_verification_passed_coop i (item_in_progress item is_resuming)
              (prd_in_progress i item is_resuming prd) s3)
    as (commit & t & s4 & Hpass & Hcommit & Hdisk4).
  simpl in Hpass. rewrite Hpass.
  assert (Hprd : forall x, store i x (prd_in_progress i item is_resuming prd)
                           = store i x prd).
  { intros x. unfold prd_in_progress.
    destruct is_resuming; [done | apply store_store]. }
  rewrite Hprd in *. by exists commit, t, s4.
Qed.

Lemma all_done_actionable prd : all_done prd = true <-> actionable prd = 0.
Proof.
  unfold actionable. split.
  - intros Hall.
    assert (Hnone : forall st, st = DOING \/ st = TODO -> none_in_state st prd).
    { intros st Hst it Hin Heq. apply list_elem_of_In in Hin.
      pose proof (proj1 (forallb_forall _ _) Hall it Hin) as Hit.
      apply orb_true_iff in Hit. rewrite !bool_decide_eq_true in Hit.
      destruct Hst; destruct Hit; congruence. }
    rewrite !none_in_state_count; [done | apply Hnone; by left
                                   | apply Hnone; by right].
  - rewrite !count_by_state_filter. intros Hzero.
    assert (Hnone : forall st, length (filter (has_state st) (items prd)) = 0%nat ->
                               none_in_state st prd).
    { intros st Hlen it Hin Hst. apply nil_length_inv in Hlen.
      assert (Hfil : it ∈ filter (has_state st) (items prd))
        by (by apply list_elem_of_filter).
      rewrite Hlen in Hfil. by apply elem_of_nil in Hfil. }
    apply nothing_actionable_all_done; apply Hnone; lia.
Qed.

(** One pass through the loop in a cooperative environment: one item more
    is done. *)
Lemma loop_body_coop iteration failures (s : RunState) prd :
  disk_is repo_root (world s) prd ->
  all_done prd = false ->
  exists prd' s',
    loop_body repo_root model max_iterations no_commit iteration failures s
    = (Continue (iteration + 1) failures, s') /\
    disk_is repo_root (world s') prd' /\
    actionable prd' = actionable prd - 1 /\
    count_by_state prd' DONE = count_by_state prd DONE + 1 /\
    count_by_state prd' BLOCKED = count_by_state prd BLOCKED.
Proof.
  intros Hdisk Hnot. unfold loop_body.
  destruct (load_prd_coop s prd Hdisk) as (s0 & -> & Hworld).
  rewrite Hnot.
  destruct (not_all_done_selects prd Hnot) as (i & item & is_resuming & Hnext).
  rewrite Hnext.
  assert (Hdisk0 : disk_is repo_root (world s0) prd) by (by rewrite Hworld).
  destruct (process_item_coop i item is_resuming prd (iteration + 1) failures
              s0 Hdisk0) as (commit & t & s1 & Hrun & Hcommit & Hdisk1).
  simpl in Hrun. rewrite Hrun.
  set (item' := with_status (completed t) (item_in_progress item is_resuming))
    in *.
  exists (store i item' prd), s1. split.
  { destruct commit as [[[|]|e]|]; try done. by destruct (Hcommit e). }
  split; [exact Hdisk1|].
  pose proof (get_next_item_cases prd) as Hcases. rewrite Hnext in Hcases.
  assert (Hitem : items prd !! i = Some item /\
                  (state (status item) = TODO \/ state (status item) = DOING)).
  { destruct is_resuming.
    - destruct Hcases as (Hlk & Hst & _). split; [done | by right].
    - destruct Hcases as (_ & Hlk & Hst & _). split; [done | by left]. }
  destruct Hitem as [Hlk Hstate].
  pose proof (count_by_state_store prd TODO i item item' Hlk) as Htodo.
  pose proof (count_by_state_store prd DOING i item item' Hlk) as Hdoing.
  pose proof (count_by_state_store prd DONE i item item' Hlk) as Hdone.
  pose proof (count_by_state_store prd BLOCKED i item item' Hlk) as Hblocked.
  rewrite (decide_False (P := has_state TODO item')) in Htodo by done.
  rewrite (decide_False (P := has_state DOING item')) in Hdoing by done.
  rewrite (decide_True (P := has_state DONE item')) in Hdone by done.
  rewrite (decide_False (P := has_state BLOCKED item')) in Hblocked by done.
  unfold actionable.
  destruct (decide (has_state TODO item)) as [H1|H1],
    (decide (has_state DOING item)) as [H2|H2],
    (decide (has_state DONE item)) as [H3|H3],
    (decide (has_state BLOCKED item)) as [H4|H4];
    unfold has_state in H1, H2, H3, H4;
    destruct Hstate as [Hs|Hs]; try congruence; lia.
Qed.

Lemma loop_body_coop_done iteration failures (s : RunState) prd :
  disk_is repo_root (world s) prd ->
  all_done prd = true ->
  exists s',
    loop_body repo_root model max_iterations no_commit iteration failures s
    = (Stop (Returned 0), s') /\
    disk_is repo_root (world s') prd.
Proof.
  intros Hdisk Hall. unfold loop_body.
  destruct (load_prd_coop s prd Hdisk) as (s0 & -> & Hworld).
  rewrite Hall. eexists. split; [reflexivity|].
  apply disk_append_progress. simpl. by rewrite Hworld.
Qed.

(** The loop in a cooperative environment, with [n] items left to work on
    and room for them under the iteration limit. *)
Lemma while_loop_coop n :
  forall fuel iteration failures (s : RunState) prd,
  disk_is repo_root (world s) prd ->
  actionable prd = Z.of_nat n ->
  failures < max_failures ->
  iteration + Z.of_nat n <= max_iterations ->
  (n <= fuel)%nat ->
  (iteration + Z.of_nat n < max_iterations -> (n < fuel)%nat) ->
  exists s' prd',
    while_loop repo_root model max_iterations max_failures no_commit
      fuel iteration failures s
    = Some (Returned (if iteration + Z.of_nat n <? max_iterations then 0 else 1),
            s') /\
    disk_is repo_root (world s') prd' /\
    all_done prd' = true /\
    count_by_state prd' DONE = count_by_state prd DONE + Z.of_nat n /\
    count_by_state prd' BLOCKED = count_by_state prd BLOCKED.
Proof.
  induction n as [|n IH];
    intros fuel iteration failures s prd Hdisk Hact Hfail Hroom Hfuel Hfuel'.
  - assert (Hall : all_done prd = true) by (by apply all_done_actionable).
    replace (iteration + Z.of_nat 0) with iteration in * by lia.
    destruct (iteration <? max_iterations) eqn:Hlt.
    + apply Z.ltb_lt in Hlt. specialize (Hfuel' Hlt).
      destruct fuel as [|fuel]; [lia|]. simpl.
      rewrite (proj2 (Z.ltb_lt _ _) Hlt), (proj2 (Z.ltb_lt _ _) Hfail). simpl.
      destruct (loop_body_coop_done iteration failures s prd Hdisk Hall)
        as (s' & -> & Hdisk').
      exists s', prd. split; [done|]. split; [exact Hdisk'|].
      split; [exact Hall|]. split; lia.
    + rewrite while_loop_stops by (by rewrite Hlt).
      unfold after_loop.
      assert ((failures >=? max_failures) = false) as ->.
      { rewrite Z.geb_leb. apply Z.leb_gt. lia. }
      assert ((iteration >=? max_iterations) = true) as ->.
      { rewrite Z.geb_leb. apply Z.leb_le. apply Z.ltb_ge in Hlt. lia. }
      eexists _, prd. split; [reflexivity|].
      split; [by apply disk_append_progress|].
      split; [exact Hall|]. split; lia.
  - assert (Hnot : all_done prd = false).
    { destruct (all_done prd) eqn:Hall; [|done].
      apply all_done_actionable in Hall. lia. }
    assert (Hlt : iteration < max_iterations) by lia.
    destruct fuel as [|fuel]; [lia|]. simpl.
    rewrite (proj2 (Z.ltb_lt _ _) Hlt), (proj2 (Z.ltb_lt _ _) Hfail). simpl.
    destruct (loop_body_coop iteration failures s prd Hdisk Hnot)
      as (prd1 & s1 & -> & Hdisk1 & Hact1 & Hdone1 & Hblocked1).
    destruct (IH fuel (iteration + 1) failures s1 prd1 Hdisk1)
      as (s' & prd' & Hloop & Hdisk' & Hall' & Hdone' & Hblocked');
      try lia.
    exists s', prd'.
    replace (iteration + Z.of_nat (S n)) with (iteration + 1 + Z.of_nat n) by lia.
    split; [exact Hloop|]. split; [exact Hdisk'|]. split; [exact Hall'|].
    split; lia.
Qed.

(** A whole run in a cooperative environment. *)
Lemma run_loop_coop (w : World) prd :
  disk_is repo_root w prd ->
  0 < max_failures ->
  actionable prd <= max_iterations ->
  exists s' prd',
    run_loop repo_root model max_iterations max_failures no_commit w
    = Some (Returned (if actionable prd <? max_iterations then 0 else 1), s') /\
    disk_is repo_root (world s') prd' /\
    all_done prd' = true /\
    count_by_state prd' DONE = count_by_state prd DONE + actionable prd /\
    count_by_state prd' BLOCKED = count_by_state prd BLOCKED.
Proof.
  intros Hdisk Hfail Hroom. unfold run_loop, is_git_repo.
  destruct (disk_run (Argv ["git"; "rev-parse"; "--git-dir"]) (init_state w) prd
              Hdisk) as [Hdisk1 Hout].
  destruct (run _ repo_root (init_state w)) as [o s1]. simpl in Hdisk1, Hout.
  pose proof Hcoop as (_ & _ & _ & Htouch & Hrepo & _).
  destruct (Hrepo w) as (out & err & Hexit).
  unfold git_rev_parse in Hexit. rewrite Hexit in Hout. subst o.
  change (0 =? 0) with true. cbv iota.
  destruct (load_prd_coop s1 prd Hdisk1) as (s2 & -> & Hworld).
  assert (Hnonneg : 0 <= actionable prd).
  { unfold actionable. rewrite !count_by_state_filter. lia. }
  match goal with
  | |- context [while_loop _ _ _ _ _ ?fuel 0 0 ?s3] =>
      destruct (while_loop_coop (Z.to_nat (actionable prd)) fuel 0 0 s3 prd)
        as (s' & prd' & Hloop & Hdisk' & Hall' & Hdone' & Hblocked')
  end; try lia.
  - apply disk_append_progress.
    destruct (path_exists (get_progress_path repo_root) (world s2)); simpl;
      rewrite Hworld; [done | by apply Htouch].
  - exists s', prd'.
    replace (0 + Z.of_nat (Z.to_nat (actionable prd))) with (actionable prd)
      in Hloop by lia.
    split; [exact Hloop|]. split; [exact Hdisk'|]. split; [exact Hall'|].
    split; lia.
Qed.

End Cooperative.

Section CooperativeTheorems.
Context {P : Platform}.
Variables (repo_root : Path) (model : string).
Variables (max_iterations max_failures : Z) (no_commit : bool).



End CooperativeTheorems.

(** *** The ideal platform is cooperative *)

Section CooperativeRuns.

Lemma ideal_cooperative (repo_root : Path) (model : string) :
  @cooperative ideal_platform repo_root model.
Proof.
  unfold cooperative, disk_is, exited. simpl.
  split; [by intros prd w|].
  split; [by intros c w prd|].
  split; [by intros line w prd|].
  split; [by intros w prd|].
  split; [by intros w; eexists _, _|].
  split; [by intros prompt w; eexists _, _|].
  split; [by intros line w; eexists _, _|].
  by intros args w e.
Qed.



End CooperativeRuns.
